(** * pr-status-giphy-action: a shallow embedding of [src/index.js]

    The action runs on a pull-request event, removes the comments it left
    on earlier runs, polls the check runs of the commit and, once their
    aggregate status is terminal, posts a comment with a gif.

    The file follows the source top to bottom: the process environment
    (lines 4-29), the check aggregator (34-55), the comment manager
    (60-101), the gif client (107-143), the notifier loop (149-166) and
    the top-level script with its entry guard and global timer
    (168-196). *)

From Stdlib Require Import List String Ascii Bool Arith NArith ZArith Lia.
From Stdlib Require Import Permutation.
Import ListNotations.

Local Open Scope string_scope.
Local Open Scope list_scope.

(** ** Data received from the outside *)

(** One element of [data.check_runs].  The source compares [status] and
    [conclusion] with string literals, so they stay strings here;
    [conclusion] is [null] until the run has completed. *)
Record CheckRun : Type := mkCheckRun {
  name : string;
  status : string;
  conclusion : option string
}.

(** The body of the check-runs response and the axios response wrapper
    ([getStatusOfChecks] destructures [{ data }]). *)
Record CheckRunsPayload : Type := mkPayload { check_runs : list CheckRun }.

Record Response (A : Type) : Type := mkResponse { data : A }.
Arguments mkResponse {A} _.
Arguments data {A} _.

Definition checksResponse (runs : list CheckRun) : Response CheckRunsPayload :=
  mkResponse (mkPayload runs).

Inductive AggregateStatus : Type := FAILURE | IN_PROGRESS | SUCCESS.

(** A pull-request comment as the comment manager uses it. *)
Record Comment : Type := mkComment {
  id : N;
  body : string
}.

(** A giphy result; [webp] stands for [gif.images.original.webp]. *)
Record Gif : Type := mkGif {
  title : string;
  webp : string
}.

(** The event document behind [GITHUB_EVENT_PATH].  [action] is [None]
    when the document has no string under that key. *)
Record GithubEvent : Type := mkEvent {
  action : option string;
  number : N
}.

(** ** JavaScript primitives used by the source *)

(** [s.startsWith(p)], the one-position test behind [includes]. *)
Fixpoint startsWith (s p : string) {struct p} : bool :=
  match p, s with
  | EmptyString, _ => true
  | String _ _, EmptyString => false
  | String a p', String b s' => Ascii.eqb a b && startsWith s' p'
  end.

(** [s.includes(sub)]: [sub] occurs in [s] at some position. *)
Fixpoint includes (s sub : string) : bool :=
  startsWith s sub ||
  match s with
  | EmptyString => false
  | String _ s' => includes s' sub
  end.

(** Strict equality on an optional string field against a literal:
    [undefined] and [null] are different from every string. *)
Definition strictEq (field : option string) (lit : string) : bool :=
  match field with
  | Some s => String.eqb s lit
  | None => false
  end.

(** Truthiness of an array length, as in [if (failedChecks.length)]. *)
Definition truthyLength {A : Type} (l : list A) : bool :=
  negb (Nat.eqb (List.length l) 0).

(** ** Check aggregator (lines 43-55) *)

Section Aggregator.

(** [githubAction], line 8. *)
Variable githubAction : string.

Definition notSelf (cr : CheckRun) : bool :=
  negb (String.eqb (name cr) githubAction).

Definition isFailed (cr : CheckRun) : bool :=
  String.eqb (status cr) "completed" && strictEq (conclusion cr) "failure".

Definition isInProgress (cr : CheckRun) : bool :=
  String.eqb (status cr) "queued" || String.eqb (status cr) "in_progress".

Definition getStatusOfChecks (res : Response CheckRunsPayload) : AggregateStatus :=
  let filteredChecks := filter notSelf (check_runs (data res)) in
  let failedChecks := filter isFailed filteredChecks in
  if truthyLength failedChecks then FAILURE
  else
    let inProgressChecks := filter isInProgress filteredChecks in
    if truthyLength inProgressChecks then IN_PROGRESS
    else SUCCESS.

End Aggregator.

(** ** Process environment (lines 4-11)

    The constants of the module once lines 4-29 have run without
    throwing; how they come about, and when line 7 or line 16 throws
    instead, is [startup] below.  [process.env.X || ''] maps an unset
    variable to the empty string, so [GITHUB_ACTION] is a plain string.
    [GITHUB_WORKFLOW] is only tested for truthiness.  [githubEvent] is
    [None] when the value bound on line 7 is falsy: the empty string of
    an unset [GITHUB_EVENT_PATH], or a document that is [false], [0] or
    the empty string. *)
Record ProcessEnv : Type := mkProcessEnv {
  GITHUB_WORKFLOW : option string;
  GITHUB_ACTION : string;
  githubEvent : option GithubEvent
}.

Definition truthy (v : option string) : bool :=
  match v with
  | Some s => negb (String.eqb s "")
  | None => false
  end.

Definition NEUTRAL_ERROR_CODE (penv : ProcessEnv) : Z :=
  if truthy (GITHUB_WORKFLOW penv) then 78%Z else 0%Z.

Definition commentFooter : string := "<sub>;)</sub>".

(** Line feed, the [\n] of the template literal on line 129. *)
Definition LF : string := String (Ascii.ascii_of_nat 10) EmptyString.

(** ** The outside world

    Everything the process observes but does not decide.  Requests are
    numbered in the order the process issues them; [latency n] is the
    time in milliseconds until request [n] is answered and [accepts n]
    tells whether the answer is a success.  [checksAt k] is what the
    check-runs endpoint reports at the [k]-th poll.  The comment listing
    is not paginated by the source, so it sees the first [perPage]
    comments only. *)
Record World : Type := mkWorld {
  initialComments : list Comment;
  perPage : nat;
  checksAt : nat -> list CheckRun;
  gifFor : string -> Gif;
  latency : nat -> N;
  accepts : nat -> bool
}.

(** What the process does that the outside can see. *)
Inductive Event : Type :=
| GetCheckRuns
| GetComments
| DeleteComment (i : N)
| GetRandomGif (tag : string)
| PostComment (b : string)
| Sleep (ms : N).

(** ** Run state

    [now] is the time since process start in milliseconds, [sent] the
    number of requests issued, [polls] the number of check-runs
    listings among them, [comments] the comments of the pull request as
    the server holds them, [trace] the events so far with their time. *)
Record State : Type := mkState {
  now : N;
  sent : nat;
  polls : nat;
  comments : list Comment;
  trace : list (N * Event)
}.

(** Line 193: [setTimeout(..., 300000)]; line 161: [setTimeout(resolve, 5000)]. *)
Definition MAX_TIMEOUT : N := 300000.
Definition POLL_DELAY : N := 5000.

(** ** Promises

    A promise chain is run as a state transformer.  Besides fulfilment
    and rejection a chain can be cut short by the global timer, whose
    callback exits the process while the chain is still pending.
    [Unfinished] is the model's own: the recursion bound was used up. *)
Inductive Outcome (A : Type) : Type :=
| Fulfilled (a : A) (s : State)
| Rejected (s : State)
| TimedOut (s : State)
| Unfinished (s : State).
Arguments Fulfilled {A} _ _.
Arguments Rejected {A} _.
Arguments TimedOut {A} _.
Arguments Unfinished {A} _.

Definition Promise (A : Type) : Type := State -> Outcome A.

Definition resolve {A : Type} (a : A) : Promise A := fun s => Fulfilled a s.

Definition reject {A : Type} : Promise A := fun s => Rejected s.

Definition andThen {A B : Type} (p : Promise A) (k : A -> Promise B) : Promise B :=
  fun s =>
    match p s with
    | Fulfilled a s' => k a s'
    | Rejected s' => Rejected s'
    | TimedOut s' => TimedOut s'
    | Unfinished s' => Unfinished s'
    end.

Notation "x <- p ;; k" := (andThen p (fun x => k))
  (at level 61, p at next level, right associativity).
Notation "p ;;; k" := (andThen p (fun _ => k))
  (at level 61, right associativity).

(** [array.map(f)] where [f] starts a request: the requests are issued
    one after the other with no time passing in between. *)
Fixpoint mapP {A B : Type} (f : A -> Promise B) (l : list A) : Promise (list B) :=
  match l with
  | [] => resolve []
  | x :: l' => y <- f x ;; ys <- mapP f l' ;; resolve (y :: ys)
  end.

Definition outcomeState {A : Type} (o : Outcome A) : State :=
  match o with
  | Fulfilled _ s | Rejected s | TimedOut s | Unfinished s => s
  end.

(** The largest id in use plus one: the id the server gives a new comment. *)
Definition freshId (cs : list Comment) : N :=
  N.succ (fold_right N.max 0%N (map id cs)).

Definition isOwn (c : Comment) : bool := includes (body c) commentFooter.

(** The comment body of [postCommentWithGif], line 129. *)
Definition commentBody (gif : Gif) : string :=
  "![" ++ title gif ++ "](" ++ webp gif ++ ")" ++ LF ++ commentFooter.

Section Run.

Variable penv : ProcessEnv.
Variable w : World.

(** *** Event loop primitives *)

(** Let [d] milliseconds pass.  The global timer was armed at process
    start; if it is due no later than the awaited event it runs first
    and the process exits at [MAX_TIMEOUT]. *)
Definition elapse (d : N) : Promise unit :=
  fun s =>
    if (MAX_TIMEOUT <=? now s + d)%N
    then TimedOut (mkState MAX_TIMEOUT (sent s) (polls s) (comments s) (trace s))
    else Fulfilled tt (mkState (now s + d) (sent s) (polls s) (comments s) (trace s)).

Definition record (e : Event) : Promise unit :=
  fun s =>
    Fulfilled tt (mkState (now s) (sent s) (polls s) (comments s)
                          (trace s ++ [(now s, e)])).

(** Effect of request [n] on the pull request, if the server accepts it. *)
Definition serverEffect (n : nat) (e : Event) (cs : list Comment) : list Comment :=
  if accepts w n then
    match e with
    | DeleteComment i => filter (fun c => negb (N.eqb (id c) i)) cs
    | PostComment b => cs ++ [mkComment (freshId cs) b]
    | _ => cs
    end
  else cs.

(** Issue a request: it is logged, gets the next sequence number and
    reaches the server.  The result is the sequence number, which
    stands for the pending axios promise. *)
Definition send (e : Event) : Promise nat :=
  fun s =>
    Fulfilled (sent s)
      (mkState (now s) (S (sent s)) (polls s)
               (serverEffect (sent s) e (comments s))
               (trace s ++ [(now s, e)])).

(** Wait for the answer to request [n], whose payload is [a]. *)
Definition await {A : Type} (n : nat) (a : A) : Promise A :=
  elapse (latency w n) ;;; if accepts w n then resolve a else reject.

(** [Promise.all]: fulfilled when the slowest of the requests has been
    answered, rejected as soon as the first rejection arrives. *)
Definition slowest (ns : list nat) : N :=
  fold_right N.max 0%N (map (latency w) ns).

Definition firstRejection (ns : list nat) : N :=
  let bad := filter (fun n => negb (accepts w n)) ns in
  match bad with
  | [] => 0%N
  | n :: bad' => fold_right N.min (latency w n) (map (latency w) bad')
  end.

Definition all (ns : list nat) : Promise unit :=
  if forallb (accepts w) ns
  then elapse (slowest ns)
  else elapse (firstRejection ns) ;;; reject.

(** [setTimeout(resolve, ms)] wrapped in a promise, line 161. *)
Definition sleep (ms : N) : Promise unit :=
  record (Sleep ms) ;;; elapse ms.

(** *** Check aggregator: [fetchChecks], lines 34-38 *)
Definition fetchChecks : Promise (Response CheckRunsPayload) :=
  n <- send GetCheckRuns ;;
  fun s =>
    await n (checksResponse (checksAt w (polls s)))
      (mkState (now s) (sent s) (S (polls s)) (comments s) (trace s)).

(** *** Comment manager, lines 60-101 *)
Definition getIssueComments : Promise (list Comment) :=
  n <- send GetComments ;;
  fun s => await n (firstn (perPage w) (comments s)) s.

Definition deleteComment (comment : Comment) : Promise nat :=
  send (DeleteComment (id comment)).

Definition deleteCommentsFromAction (cs : list Comment) : Promise unit :=
  let filteredComments := filter isOwn cs in
  if negb (truthyLength filteredComments) then resolve tt
  else ns <- mapP deleteComment filteredComments ;; all ns.

Definition deleteExistingComments : Promise unit :=
  cs <- getIssueComments ;; deleteCommentsFromAction cs.

(** *** Gif client, lines 107-143 *)
Definition getGiphyGifForTag (giphyTag : string) : Promise Gif :=
  n <- send (GetRandomGif giphyTag) ;; await n (gifFor w giphyTag).

Definition postCommentWithGif (gif : Gif) : Promise unit :=
  n <- send (PostComment (commentBody gif)) ;; await n tt.

Definition postGiphyGifForTag (giphyTag : string) : Promise unit :=
  gif <- getGiphyGifForTag giphyTag ;; postCommentWithGif gif.

(** *** Notifier loop, lines 149-166

    The function calls itself again after the delay; [fuel] bounds the
    number of rounds. *)
Fixpoint scanChecksAndPostGif (fuel : nat) : Promise unit :=
  match fuel with
  | O => fun s => Unfinished s
  | S fuel' =>
      deleteExistingComments ;;;
      res <- fetchChecks ;;
      match getStatusOfChecks (GITHUB_ACTION penv) res with
      | FAILURE => postGiphyGifForTag "thumbs-down"
      | SUCCESS => postGiphyGifForTag "thumbs-up"
      | IN_PROGRESS => sleep POLL_DELAY ;;; scanChecksAndPostGif fuel'
      end
  end.

(** *** Top level, lines 168-196 *)

(** The condition of the [if] on line 168. *)
Definition skipsEvent : bool :=
  match githubEvent penv with
  | None => true
  | Some ev =>
      negb (strictEq (action ev) "synchronize") &&
      negb (strictEq (action ev) "opened")
  end.

Record Exit : Type := mkExit {
  code : Z;
  exitTime : N;
  events : list (N * Event);
  finalComments : list Comment
}.

Definition exitWith (c : Z) (s : State) : Exit :=
  mkExit c (now s) (trace s) (comments s).

Definition initialState : State := mkState 0 0 0 (initialComments w) [].

(** Every round that continues sleeps [POLL_DELAY], so no run has more
    rounds than this before the timer ends it. *)
Definition maxRounds : nat := S (N.to_nat (MAX_TIMEOUT / POLL_DELAY)).

Definition main : option Exit :=
  if skipsEvent then Some (exitWith (NEUTRAL_ERROR_CODE penv) initialState)
  else
    match scanChecksAndPostGif maxRounds initialState with
    | Fulfilled _ s => Some (exitWith 0%Z s)
    | Rejected s => Some (exitWith 1%Z s)
    | TimedOut s => Some (exitWith 1%Z s)
    | Unfinished _ => None
    end.

End Run.


(** ** Reading outcomes and traces *)

(** How an outcome relates in time to the state the promise started in:
    a settled promise settles before the timer is due, the timer fires
    exactly when it is due. *)
Definition timely {A : Type} (s : State) (o : Outcome A) : Prop :=
  match o with
  | Fulfilled _ s' | Rejected s' => (now s <= now s')%N /\ (now s' < MAX_TIMEOUT)%N
  | TimedOut s' => now s' = MAX_TIMEOUT
  | Unfinished _ => False
  end.

(** All entries carry a time between [lo] and the timer's due time. *)
Definition stamped (lo : N) (l : list (N * Event)) : Prop :=
  Forall (fun x => (lo <= fst x)%N /\ (fst x < MAX_TIMEOUT)%N) l.

(** [s'] has the trace of [s] followed by the events [evs], each
    stamped with a time between the clock of [s] and the timer's due
    time. *)
Definition extends (s s' : State) (evs : list Event) : Prop :=
  exists added,
    trace s' = trace s ++ added /\ stamped (now s) added /\ map snd added = evs.

Definition isList (e : Event) : bool :=
  match e with GetComments => true | _ => false end.

Definition isFetch (e : Event) : bool :=
  match e with GetCheckRuns => true | _ => false end.

Definition isSleep (e : Event) : bool :=
  match e with Sleep _ => true | _ => false end.

Definition isPost (e : Event) : bool :=
  match e with PostComment _ => true | _ => false end.

Definition count (p : Event -> bool) (evs : list Event) : nat :=
  List.length (filter p evs).

(** Reads the events and tells whether comment listings and check-run
    listings take turns, a comment listing first.  [Some true]: a comment
    listing has been seen since the last check-run listing; [None]: two
    listings of the same kind followed each other. *)
Definition turnStep (ph : option bool) (e : Event) : option bool :=
  match ph with
  | None => None
  | Some b =>
      match e with
      | GetComments => if b then None else Some true
      | GetCheckRuns => if b then Some false else None
      | _ => Some b
      end
  end.

Definition turns (evs : list Event) : option bool :=
  fold_left turnStep evs (Some false).

(** The requests of one cleanup: the listing, then one deletion for each
    of [dels]. *)
Definition cleanupCalls (dels : list Comment) : list Event :=
  GetComments :: map (fun c => DeleteComment (id c)) dels.

Definition tagFor (st : AggregateStatus) : option string :=
  match st with
  | FAILURE => Some "thumbs-down"
  | SUCCESS => Some "thumbs-up"
  | IN_PROGRESS => None
  end.

Definition fulfilled {A : Type} (o : Outcome A) : bool :=
  match o with
  | Fulfilled _ _ => true
  | _ => false
  end.

Section Shapes.

Variable penv : ProcessEnv.
Variable w : World.

(** The aggregate status the [k]-th poll yields. *)
Definition statusAt (k : nat) : AggregateStatus :=
  getStatusOfChecks (GITHUB_ACTION penv) (checksResponse (checksAt w k)).

(** The event sequences the loop can leave behind when it starts with
    poll number [k].  The flag tells whether the chain was fulfilled; the
    other sequences belong to chains that were rejected or cut off by
    the timer at that point. *)
Inductive RunShape : nat -> bool -> list Event -> Prop :=
| in_cleanup (k : nat) (dels : list Comment) :
    RunShape k false (cleanupCalls dels)
| in_fetch (k : nat) (dels : list Comment) :
    RunShape k false (cleanupCalls dels ++ [GetCheckRuns])
| in_gif (k : nat) (dels : list Comment) (tag : string) :
    tagFor (statusAt k) = Some tag ->
    RunShape k false (cleanupCalls dels ++ [GetCheckRuns; GetRandomGif tag])
| in_post (k : nat) (dels : list Comment) (tag : string) (ok : bool) :
    tagFor (statusAt k) = Some tag ->
    RunShape k ok
      (cleanupCalls dels ++
       [GetCheckRuns; GetRandomGif tag; PostComment (commentBody (gifFor w tag))])
| in_sleep (k : nat) (dels : list Comment) :
    statusAt k = IN_PROGRESS ->
    RunShape k false (cleanupCalls dels ++ [GetCheckRuns; Sleep POLL_DELAY])
| next_round (k : nat) (dels : list Comment) (ok : bool) (rest : list Event) :
    statusAt k = IN_PROGRESS ->
    RunShape (S k) ok rest ->
    RunShape k ok (cleanupCalls dels ++ [GetCheckRuns; Sleep POLL_DELAY] ++ rest).

End Shapes.

(** ** Further readings of statuses, comments and events *)

(** The more urgent of two aggregate statuses: [FAILURE] before
    [IN_PROGRESS] before [SUCCESS], the order of the tests in
    [getStatusOfChecks]. *)
Definition worst (x y : AggregateStatus) : AggregateStatus :=
  match x, y with
  | FAILURE, _ | _, FAILURE => FAILURE
  | IN_PROGRESS, _ | _, IN_PROGRESS => IN_PROGRESS
  | SUCCESS, SUCCESS => SUCCESS
  end.

Definition notOwn (c : Comment) : bool := negb (isOwn c).

Definition isGif (e : Event) : bool :=
  match e with GetRandomGif _ => true | _ => false end.

(** The events that are requests: everything but the sleeps. *)
Definition isRequest (e : Event) : bool := negb (isSleep e).

(** [s'] still has every comment of [s] that bears no footer, and ids
    stay distinct if they were. *)
Definition keepsOthers (s s' : State) : Prop :=
  NoDup (map id (comments s)) ->
  NoDup (map id (comments s')) /\
  forall c, In c (comments s) -> isOwn c = false -> In c (comments s').

(** Every request logged so far has a sequence number and was
    accepted. *)
Definition answered (w : World) (s : State) : Prop :=
  sent s = count isRequest (map snd (trace s)) /\
  forall n, (n < sent s)%nat -> accepts w n = true.

(** ** The states of a run, read off its events

    The loop of lines 149-166 as an automaton over events: a round
    starts with the comment listing, goes on with deletions, then the
    check-run listing; after that comes either a sleep, which leads to
    the next round, or the gif search and then the post, which ends the
    run.  [None] marks an event out of place. *)
Inductive Phase : Type :=
| AtStart
| Cleaning
| Polled
| Searched
| Posted.

Definition stepPhase (ph : option Phase) (e : Event) : option Phase :=
  match ph, e with
  | Some AtStart, GetComments => Some Cleaning
  | Some Cleaning, DeleteComment _ => Some Cleaning
  | Some Cleaning, GetCheckRuns => Some Polled
  | Some Polled, Sleep _ => Some AtStart
  | Some Polled, GetRandomGif _ => Some Searched
  | Some Searched, PostComment _ => Some Posted
  | _, _ => None
  end.

Definition phaseAfter (evs : list Event) : option Phase :=
  fold_left stepPhase evs (Some AtStart).

(** ** Loading the event document (lines 6-7 and 15-17)

    What [require(githubEventPath)] can return: a JSON value.  Of a
    number only being zero or not matters here. *)
#[local] Unset Elimination Schemes.
Inductive Json : Type :=
| JNull
| JBool (b : bool)
| JNumber (z : Z)
| JString (s : string)
| JArray (items : list Json)
| JObject (fields : list (string * Json)).
#[local] Set Elimination Schemes.

(** [obj[k]] for the fields of a parsed object; of two fields with the
    same key [JSON.parse] keeps the later. *)
Fixpoint property (k : string) (fields : list (string * Json)) : option Json :=
  match fields with
  | [] => None
  | (k', v) :: rest =>
      match property k rest with
      | Some v' => Some v'
      | None => if String.eqb k' k then Some v else None
      end
  end.

Definition jsTruthy (doc : Json) : bool :=
  match doc with
  | JNull => false
  | JBool b => b
  | JNumber z => negb (Z.eqb z 0)
  | JString s => negb (String.eqb s "")
  | JArray _ => true
  | JObject _ => true
  end.

(** [githubEvent.action] as far as the guard can tell: the string under
    that key, if the document is an object with one. *)
Definition actionOf (doc : Json) : option string :=
  match doc with
  | JObject fields =>
      match property "action" fields with
      | Some (JString s) => Some s
      | _ => None
      end
  | _ => None
  end.

Definition numberOf (doc : Json) : N :=
  match doc with
  | JObject fields =>
      match property "number" fields with
      | Some (JNumber z) => Z.to_N z
      | _ => 0%N
      end
  | _ => 0%N
  end.

(** The value of [githubEvent] as the guard of line 168 sees it. *)
Definition bindEvent (doc : Json) : option GithubEvent :=
  if jsTruthy doc then Some (mkEvent (actionOf doc) (numberOf doc)) else None.

(** What the process is started with: the environment variables and the
    files [require] can read.  [readJson path] is [None] when there is
    no file at [path] or it does not parse. *)
Record Launch : Type := mkLaunch {
  env_GITHUB_WORKFLOW : option string;
  env_GITHUB_ACTION : option string;
  env_GITHUB_EVENT_PATH : option string;
  readJson : string -> option Json
}.

(** [process.env.X || '']. *)
Definition orEmpty (v : option string) : string :=
  match v with
  | Some s => s
  | None => ""
  end.

Inductive Startup : Type :=
| Threw
| Started (penv : ProcessEnv).

(** Lines 4-29.  [require] throws on line 7 when the file cannot be
    loaded; [githubEvent.number] throws on line 16 when the document is
    [null]. *)
Definition startup (l : Launch) : Startup :=
  let githubEventPath := orEmpty (env_GITHUB_EVENT_PATH l) in
  if String.eqb githubEventPath "" then
    Started (mkProcessEnv (env_GITHUB_WORKFLOW l) (orEmpty (env_GITHUB_ACTION l)) None)
  else
    match readJson l githubEventPath with
    | None => Threw
    | Some JNull => Threw
    | Some doc =>
        Started (mkProcessEnv (env_GITHUB_WORKFLOW l) (orEmpty (env_GITHUB_ACTION l))
                              (bindEvent doc))
    end.

(** The whole script.  An exception thrown while the module loads is
    not caught: node ends the process with status 1. *)
Definition run (l : Launch) (w : World) : option Exit :=
  match startup l with
  | Threw => Some (mkExit 1 0 [] (initialComments w))
  | Started penv => main penv w
  end.

(** ** Scenarios

    Environments and worlds the properties below are tried on. *)

Definition onOpened : ProcessEnv :=
  mkProcessEnv (Some "CI") "self" (Some (mkEvent (Some "opened") 7)).

Definition onClosed : ProcessEnv :=
  mkProcessEnv (Some "CI") "self" (Some (mkEvent (Some "closed") 7)).

Definition anyGif (tag : string) : Gif :=
  mkGif tag "https://media.giphy.com/media/x/giphy.webp".

Definition oldComment : Comment :=
  mkComment 2 ("ok " ++ commentFooter).

(** The first poll finds a queued check, the second finds it passed. *)
Definition twoPolls : World :=
  mkWorld [mkComment 1 "hi"; oldComment] 30
    (fun k => match k with
              | O => [mkCheckRun "build" "queued" None]
              | S _ => [mkCheckRun "build" "completed" (Some "success")]
              end)
    anyGif (fun _ => 100%N) (fun _ => true).

(** The action's own run is in progress, the other run has passed. *)
Definition selfRunning : World :=
  mkWorld [] 30
    (fun _ => [mkCheckRun "self" "in_progress" None;
               mkCheckRun "other" "completed" (Some "success")])
    anyGif (fun _ => 100%N) (fun _ => true).

(** A check that never leaves [in_progress]. *)
Definition stuck : World :=
  mkWorld [oldComment] 30
    (fun _ => [mkCheckRun "build" "in_progress" None])
    anyGif (fun _ => 100%N) (fun _ => true).

(** The server takes the new comment but its answer does not arrive:
    listing, poll and gif search are answered after one second each, so
    the comment is sent three seconds into the run; the answer to it
    would take 400 s. *)
Definition lateAnswer : World :=
  mkWorld [] 30
    (fun _ => [mkCheckRun "build" "completed" (Some "success")])
    anyGif
    (fun n => match n with
              | 3%nat => 400000%N
              | _ => 1000%N
              end)
    (fun _ => true).

(** Thirty comments by others and, behind them, one left by an earlier
    run; the listing returns thirty comments. *)
Definition crowded : World :=
  mkWorld
    (map (fun i => mkComment (N.of_nat i) "review note") (seq 1 30)
     ++ [mkComment 31 (commentBody (anyGif "thumbs-down"))])
    30
    (fun _ => [mkCheckRun "build" "completed" (Some "success")])
    anyGif (fun _ => 100%N) (fun _ => true).

(** The pull request as the run on [twoPolls] leaves it, with checks
    that have failed this time. *)
Definition secondRun : World :=
  mkWorld [mkComment 1 "hi"; mkComment 2 (commentBody (anyGif "thumbs-up"))] 30
    (fun _ => [mkCheckRun "build" "completed" (Some "failure")])
    anyGif (fun _ => 100%N) (fun _ => true).

(** The comment listing is refused, after 250 ms. *)
Definition refusedListing : World :=
  mkWorld [oldComment] 30
    (fun _ => [mkCheckRun "build" "completed" (Some "success")])
    anyGif (fun _ => 250%N) (fun n => negb (Nat.eqb n 0)).

(** Launches inside a workflow, with the event document at the usual
    path. *)
Definition eventPath : string := "/github/workflow/event.json".

Definition launchWith (doc : option Json) : Launch :=
  mkLaunch (Some "CI") (Some "self") (Some eventPath)
    (fun path => if String.eqb path eventPath then doc else None).

Definition openedDocument : Json :=
  JObject [("action", JString "opened"); ("number", JNumber 7)].



(** * Properties *)

(** ** Strings and lists *)

Lemma startsWith_app (s p : string) :
  startsWith s p = true <-> exists r, s = (p ++ r)%string.
Proof.
  revert s; induction p as [|a p IH]; intros s; simpl.
  - split; [intros _; now exists s | reflexivity].
  - destruct s as [|b s].
    + split; [discriminate | intros [r Hr]; discriminate].
    + rewrite andb_true_iff, Ascii.eqb_eq, IH. split.
      * intros [-> [r ->]]. now exists r.
      * intros [r Hr]. injection Hr as -> ->. split; [reflexivity | now exists r].
Qed.

(** [includes] is substring containment. *)
Lemma includes_spec (s sub : string) :
  includes s sub = true <-> exists pre post, s = (pre ++ sub ++ post)%string.
Proof.
  induction s as [|b s IH]; simpl; rewrite orb_true_iff.
  - rewrite startsWith_app. split.
    + intros [[r Hr] | H]; [|discriminate]. now exists "", r.
    + intros [pre [post H]]. left. destruct pre; simpl in H.
      * now exists post.
      * discriminate.
  - rewrite startsWith_app, IH. split.
    + intros [[r Hr] | [pre [post H]]].
      * now exists "", r.
      * exists (String b pre), post. simpl. now rewrite H.
    + intros [pre [post H]]. destruct pre as [|c pre]; simpl in H.
      * left. now exists post.
      * right. injection H as _ H. now exists pre, post.
Qed.

Lemma string_app_assoc (a b c : string) :
  ((a ++ b) ++ c)%string = (a ++ (b ++ c))%string.
Proof. induction a as [|x a IH]; simpl; [reflexivity | now rewrite IH]. Qed.

Lemma truthyLength_filter {A : Type} (p : A -> bool) (l : list A) :
  truthyLength (filter p l) = existsb p l.
Proof.
  unfold truthyLength. induction l as [|x l IH]; simpl; [reflexivity|].
  destruct (p x); simpl; [reflexivity | exact IH].
Qed.

Lemma truthyLength_false {A : Type} (l : list A) :
  truthyLength l = false <-> l = [].
Proof. destruct l; unfold truthyLength; simpl; split; congruence. Qed.

Lemma filter_filter_same {A : Type} (p : A -> bool) (l : list A) :
  filter p (filter p l) = filter p l.
Proof.
  induction l as [|x l IH]; simpl; [reflexivity|].
  destruct (p x) eqn:E; simpl; [rewrite E, IH|]; easy.
Qed.

(** ** Check aggregator *)

Lemma notSelf_true (a : string) (cr : CheckRun) :
  notSelf a cr = true <-> name cr <> a.
Proof.
  unfold notSelf. rewrite negb_true_iff. split.
  - intros H E. apply String.eqb_eq in E. congruence.
  - intros H. apply String.eqb_neq. exact H.
Qed.

Lemma strictEq_true (f : option string) (lit : string) :
  strictEq f lit = true <-> f = Some lit.
Proof.
  destruct f as [s|]; simpl.
  - rewrite String.eqb_eq. split; congruence.
  - split; discriminate.
Qed.

Lemma isFailed_true (cr : CheckRun) :
  isFailed cr = true <-> status cr = "completed" /\ conclusion cr = Some "failure".
Proof. unfold isFailed. now rewrite andb_true_iff, String.eqb_eq, strictEq_true. Qed.

Lemma isInProgress_true (cr : CheckRun) :
  isInProgress cr = true <-> status cr = "queued" \/ status cr = "in_progress".
Proof. unfold isInProgress. now rewrite orb_true_iff, !String.eqb_eq. Qed.

(** The two length tests read as existence tests on the filtered list. *)
Lemma getStatusOfChecks_existsb (a : string) (res : Response CheckRunsPayload) :
  getStatusOfChecks a res =
  if existsb isFailed (filter (notSelf a) (check_runs (data res))) then FAILURE
  else if existsb isInProgress (filter (notSelf a) (check_runs (data res)))
       then IN_PROGRESS else SUCCESS.
Proof. unfold getStatusOfChecks. now rewrite !truthyLength_filter. Qed.

Lemma existsb_filter_In {A : Type} (p q : A -> bool) (l : list A) :
  existsb q (filter p l) = true <-> exists x, In x l /\ p x = true /\ q x = true.
Proof.
  rewrite existsb_exists. split.
  - intros [x [Hin Hq]]. apply filter_In in Hin. now exists x.
  - intros [x [Hin [Hp Hq]]]. exists x. split; [apply filter_In|]; easy.
Qed.

Lemma existsb_filter_none {A : Type} (p q : A -> bool) (l : list A) :
  existsb q (filter p l) = false <-> forall x, In x l -> p x = true -> q x = false.
Proof.
  split.
  - intros H x Hin Hp. destruct (q x) eqn:Hq; [|reflexivity].
    assert (E : existsb q (filter p l) = true)
      by (apply existsb_filter_In; now exists x).
    congruence.
  - intros H. destruct (existsb q (filter p l)) eqn:E; [|reflexivity].
    apply existsb_filter_In in E. destruct E as [x [Hin [Hp Hq]]].
    rewrite (H x Hin Hp) in Hq. discriminate.
Qed.

(** Dropping or adding a run that both tests ignore changes nothing. *)
Lemma getStatusOfChecks_ignores (a : string) (cr : CheckRun) (pre post : list CheckRun) :
  notSelf a cr && (isFailed cr || isInProgress cr) = false ->
  getStatusOfChecks a (checksResponse (pre ++ cr :: post)) =
  getStatusOfChecks a (checksResponse (pre ++ post)).
Proof.
  intros H. rewrite !getStatusOfChecks_existsb. simpl.
  rewrite !filter_app, !existsb_app. simpl.
  destruct (notSelf a cr); simpl in *; [|reflexivity].
  apply orb_false_iff in H. destruct H as [-> ->]. reflexivity.
Qed.

(** C1: when a run other than the action's own has status [completed]
    and conclusion [failure], the aggregate status is [FAILURE], whatever
    the other runs are. *)
Theorem failure_takes_priority (a : string) (res : Response CheckRunsPayload)
    (cr : CheckRun) :
  In cr (check_runs (data res)) ->
  name cr <> a ->
  status cr = "completed" ->
  conclusion cr = Some "failure" ->
  getStatusOfChecks a res = FAILURE.
Proof.
  intros Hin Hname Hst Hc. rewrite getStatusOfChecks_existsb.
  assert (E : existsb isFailed (filter (notSelf a) (check_runs (data res))) = true).
  { apply existsb_filter_In. exists cr. repeat split.
    - exact Hin.
    - now apply notSelf_true.
    - now apply isFailed_true. }
  now rewrite E.
Qed.

Lemma failure_takes_priority_witness :
  getStatusOfChecks "self"
    (checksResponse [mkCheckRun "build" "in_progress" None;
                     mkCheckRun "test" "completed" (Some "failure");
                     mkCheckRun "lint" "queued" None]) = FAILURE.
Proof.
  apply (failure_takes_priority "self" _ (mkCheckRun "test" "completed" (Some "failure"))).
  - simpl. right. left. reflexivity.
  - simpl. discriminate.
  - reflexivity.
  - reflexivity.
Defined.

(** C3: the action's own runs are left out of the aggregation.  The
    status of a collection is the status of the collection without the
    runs named like the action, and putting such a run anywhere into a
    collection, whatever its status and conclusion, leaves the status as
    it was. *)
Theorem self_run_excluded (a : string) :
  (forall runs : list CheckRun,
     getStatusOfChecks a (checksResponse runs) =
     getStatusOfChecks a
       (checksResponse (filter (fun cr => negb (String.eqb (name cr) a)) runs))) /\
  (forall (pre post : list CheckRun) (st : string) (c : option string),
     getStatusOfChecks a (checksResponse (pre ++ mkCheckRun a st c :: post)) =
     getStatusOfChecks a (checksResponse (pre ++ post))).
Proof.
  split.
  - intros runs. unfold getStatusOfChecks. simpl.
    fold (notSelf a). now rewrite filter_filter_same.
  - intros pre post st c. apply getStatusOfChecks_ignores.
    unfold notSelf. simpl. now rewrite String.eqb_refl.
Qed.

Lemma self_run_excluded_witness :
  getStatusOfChecks "self"
    (checksResponse [mkCheckRun "self" "in_progress" None;
                     mkCheckRun "other" "completed" (Some "success")]) =
  getStatusOfChecks "self"
    (checksResponse [mkCheckRun "other" "completed" (Some "success")]) /\
  getStatusOfChecks "self"
    (checksResponse [mkCheckRun "lint" "queued" None;
                     mkCheckRun "self" "completed" (Some "failure")]) =
  getStatusOfChecks "self"
    (checksResponse [mkCheckRun "lint" "queued" None]).
Proof.
  split.
  - exact (proj2 (self_run_excluded "self") []
             [mkCheckRun "other" "completed" (Some "success")] "in_progress" None).
  - exact (proj2 (self_run_excluded "self") [mkCheckRun "lint" "queued" None]
             [] "completed" (Some "failure")).
Defined.

(** C4: when no run other than the action's own is completed with
    conclusion [failure], the status is [IN_PROGRESS] if some such run is
    queued or in progress and [SUCCESS] if none is; with nothing left
    after the exclusion the status is [SUCCESS]. *)
Theorem no_failure_in_progress_or_success (a : string) (runs : list CheckRun) :
  (forall cr, In cr runs -> name cr <> a ->
     ~ (status cr = "completed" /\ conclusion cr = Some "failure")) ->
  ((exists cr, In cr runs /\ name cr <> a /\
               (status cr = "queued" \/ status cr = "in_progress")) ->
   getStatusOfChecks a (checksResponse runs) = IN_PROGRESS) /\
  ((forall cr, In cr runs -> name cr <> a ->
      status cr <> "queued" /\ status cr <> "in_progress") ->
   getStatusOfChecks a (checksResponse runs) = SUCCESS) /\
  ((forall cr, In cr runs -> name cr = a) ->
   getStatusOfChecks a (checksResponse runs) = SUCCESS).
Proof.
  intros Hnf. rewrite getStatusOfChecks_existsb. simpl.
  assert (F : existsb isFailed (filter (notSelf a) runs) = false).
  { apply existsb_filter_none. intros cr Hin Hp.
    destruct (isFailed cr) eqn:E; [|reflexivity].
    exfalso. apply (Hnf cr Hin); [now apply notSelf_true | now apply isFailed_true]. }
  rewrite F.
  assert (S2 : (forall cr, In cr runs -> name cr <> a ->
                  status cr <> "queued" /\ status cr <> "in_progress") ->
               existsb isInProgress (filter (notSelf a) runs) = false).
  { intros H. apply existsb_filter_none. intros cr Hin Hp.
    destruct (isInProgress cr) eqn:E; [|reflexivity].
    apply isInProgress_true in E. apply notSelf_true in Hp.
    destruct (H cr Hin Hp) as [H1 H2]. destruct E; contradiction. }
  split; [|split].
  - intros [cr [Hin [Hn Hs]]].
    assert (E : existsb isInProgress (filter (notSelf a) runs) = true).
    { apply existsb_filter_In. exists cr. repeat split.
      - exact Hin.
      - now apply notSelf_true.
      - now apply isInProgress_true. }
    now rewrite E.
  - intros H. now rewrite (S2 H).
  - intros H. rewrite S2; [reflexivity|].
    intros cr Hin Hn. exfalso. exact (Hn (H cr Hin)).
Qed.

Lemma no_failure_in_progress_or_success_witness :
  getStatusOfChecks "self"
    (checksResponse [mkCheckRun "build" "completed" (Some "success");
                     mkCheckRun "test" "queued" None]) = IN_PROGRESS /\
  getStatusOfChecks "self"
    (checksResponse [mkCheckRun "self" "in_progress" None]) = SUCCESS.
Proof.
  split.
  - apply (no_failure_in_progress_or_success "self"
             [mkCheckRun "build" "completed" (Some "success");
              mkCheckRun "test" "queued" None]).
    + intros cr [<- | [<- | []]] _ [H1 H2]; simpl in *; discriminate.
    + exists (mkCheckRun "test" "queued" None). simpl. split; [|split].
      * right. left. reflexivity.
      * discriminate.
      * left. reflexivity.
  - apply (no_failure_in_progress_or_success "self"
             [mkCheckRun "self" "in_progress" None]).
    + intros cr [<- | []] _ [H1 H2]; simpl in *; discriminate.
    + intros cr [<- | []]. reflexivity.
Defined.

(** C10: a run that is completed with a conclusion other than [failure]
    (a missing conclusion included) has no part in the result: the status
    is the same with the run and without it, so it never is the reason
    for [FAILURE] or [IN_PROGRESS].  When every run other than the
    action's own is of this kind the status is [SUCCESS]. *)
Theorem completed_without_failure_is_neutral (a : string) :
  (forall (pre post : list CheckRun) (cr : CheckRun),
     status cr = "completed" ->
     conclusion cr <> Some "failure" ->
     getStatusOfChecks a (checksResponse (pre ++ cr :: post)) =
     getStatusOfChecks a (checksResponse (pre ++ post))) /\
  (forall runs : list CheckRun,
     (forall cr, In cr runs -> name cr <> a ->
        status cr = "completed" /\ conclusion cr <> Some "failure") ->
     getStatusOfChecks a (checksResponse runs) = SUCCESS).
Proof.
  assert (B : forall cr, status cr = "completed" ->
                conclusion cr <> Some "failure" ->
                isFailed cr || isInProgress cr = false).
  { intros cr Hs Hc. apply orb_false_iff. split.
    - destruct (isFailed cr) eqn:E; [|reflexivity].
      apply isFailed_true in E. destruct E as [_ E]. contradiction.
    - unfold isInProgress. now rewrite Hs. }
  split.
  - intros pre post cr Hs Hc. apply getStatusOfChecks_ignores.
    rewrite (B cr Hs Hc). apply andb_false_r.
  - intros runs H. rewrite getStatusOfChecks_existsb. simpl.
    assert (F : existsb isFailed (filter (notSelf a) runs) = false).
    { apply existsb_filter_none. intros cr Hin Hp. apply notSelf_true in Hp.
      destruct (H cr Hin Hp) as [Hs Hc].
      pose proof (B cr Hs Hc) as E. now apply orb_false_iff in E. }
    assert (P : existsb isInProgress (filter (notSelf a) runs) = false).
    { apply existsb_filter_none. intros cr Hin Hp. apply notSelf_true in Hp.
      destruct (H cr Hin Hp) as [Hs Hc].
      pose proof (B cr Hs Hc) as E. now apply orb_false_iff in E. }
    now rewrite F, P.
Qed.

Lemma completed_without_failure_is_neutral_witness :
  getStatusOfChecks "self"
    (checksResponse [mkCheckRun "build" "queued" None;
                     mkCheckRun "deploy" "completed" (Some "cancelled")]) =
  getStatusOfChecks "self"
    (checksResponse [mkCheckRun "build" "queued" None]) /\
  getStatusOfChecks "self"
    (checksResponse [mkCheckRun "a" "completed" (Some "timed_out");
                     mkCheckRun "b" "completed" None;
                     mkCheckRun "c" "completed" (Some "neutral");
                     mkCheckRun "self" "in_progress" None]) = SUCCESS.
Proof.
  destruct (completed_without_failure_is_neutral "self") as [H1 H2]. split.
  - apply (H1 [mkCheckRun "build" "queued" None] []
              (mkCheckRun "deploy" "completed" (Some "cancelled"))).
    + reflexivity.
    + simpl. discriminate.
  - apply H2.
    intros cr [<- | [<- | [<- | [<- | []]]]] Hn; simpl in *;
      try (split; [reflexivity | discriminate]).
    exfalso. apply Hn. reflexivity.
Defined.

(** Scenario of the specification: the action's own run is still in
    progress, the only other run has succeeded. *)
Example aggregate_self_in_progress :
  getStatusOfChecks "self"
    (checksResponse [mkCheckRun "self" "in_progress" None;
                     mkCheckRun "other" "completed" (Some "success")]) = SUCCESS.
Proof. reflexivity. Qed.

Example aggregate_self_failed_alone :
  getStatusOfChecks "self"
    (checksResponse [mkCheckRun "self" "completed" (Some "failure")]) = SUCCESS.
Proof. reflexivity. Qed.

Example aggregate_unknown_status :
  getStatusOfChecks "self"
    (checksResponse [mkCheckRun "x" "waiting" None]) = SUCCESS.
Proof. reflexivity. Qed.

(** ** Event loop primitives *)

Section Effects.

Variable w : World.

Lemma stamped_app (lo : N) (l1 l2 : list (N * Event)) :
  stamped lo l1 -> stamped lo l2 -> stamped lo (l1 ++ l2).
Proof. unfold stamped. intros H1 H2. apply Forall_app. now split. Qed.

Lemma stamped_weaken (lo lo' : N) (l : list (N * Event)) :
  (lo' <= lo)%N -> stamped lo l -> stamped lo' l.
Proof.
  unfold stamped. intros Hle H. eapply Forall_impl; [|exact H].
  simpl. intros x [H1 H2]. split; [lia | exact H2].
Qed.

(** Waiting changes nothing but the clock. *)
Lemma elapse_effect (d : N) (s : State) :
  let o := elapse d s in
  timely s o /\
  sent (outcomeState o) = sent s /\
  polls (outcomeState o) = polls s /\
  comments (outcomeState o) = comments s /\
  trace (outcomeState o) = trace s /\
  (forall u s', o <> Rejected s' /\ o <> Unfinished s' /\
     (o = Fulfilled u s' -> now s' = (now s + d)%N)).
Proof.
  unfold elapse. destruct (MAX_TIMEOUT <=? now s + d)%N eqn:E; simpl.
  - repeat split; try reflexivity; try discriminate.
  - apply N.leb_gt in E. repeat split; try reflexivity; try discriminate; try lia.
    intros H. injection H as _ <-. reflexivity.
Qed.

(** Issuing the deletions of [l]: one request per comment, all at the
    same instant, numbered consecutively.  No comment appears, and when
    the server accepts all of them no comment with one of the ids stays. *)
Lemma mapP_deleteComment_effect (l : list Comment) (s : State) :
  exists s',
    mapP (deleteComment w) l s = Fulfilled (seq (sent s) (List.length l)) s' /\
    now s' = now s /\
    polls s' = polls s /\
    trace s' = trace s ++ map (fun c => (now s, DeleteComment (id c))) l /\
    (forall c, In c (comments s') -> In c (comments s)) /\
    (List.length (comments s') <= List.length (comments s))%nat /\
    (forallb (accepts w) (seq (sent s) (List.length l)) = true ->
     forall c, In c (comments s') -> ~ In (id c) (map id l)).
Proof.
  revert s. induction l as [|x l IH]; intros s.
  - exists s. simpl. unfold resolve. rewrite app_nil_r.
    repeat split; auto.
  - simpl mapP. unfold andThen at 1. unfold deleteComment at 1. unfold send at 1.
    set (s1 := mkState (now s) (S (sent s)) (polls s)
                 (serverEffect w (sent s) (DeleteComment (id x)) (comments s))
                 (trace s ++ [(now s, DeleteComment (id x))])).
    destruct (IH s1) as [s' [E [Hn [Hp [Ht [Hin [Hlen Hdel]]]]]]].
    exists s'. unfold andThen. rewrite E. unfold resolve. simpl in *.
    split; [reflexivity|]. split; [exact Hn|]. split; [exact Hp|].
    split; [rewrite Ht, <- app_assoc; reflexivity|].
    assert (Sub : forall c, In c (serverEffect w (sent s) (DeleteComment (id x)) (comments s)) ->
                    In c (comments s)).
    { unfold serverEffect. destruct (accepts w (sent s)); [|auto].
      intros c Hc. now apply filter_In in Hc. }
    assert (Len : (List.length (serverEffect w (sent s) (DeleteComment (id x)) (comments s))
                   <= List.length (comments s))%nat).
    { unfold serverEffect. destruct (accepts w (sent s)); [|auto].
      apply filter_length_le. }
    split; [auto|]. split; [lia|].
    intros Hacc c Hc. apply andb_true_iff in Hacc. destruct Hacc as [Ha Hrest].
    intros [Hx | Hl].
    + apply Hin in Hc. unfold serverEffect in Hc. rewrite Ha in Hc.
      apply filter_In in Hc. destruct Hc as [_ Hc].
      rewrite Hx, N.eqb_refl in Hc. discriminate.
    + exact (Hdel Hrest c Hc Hl).
Qed.

(** [Promise.all] only waits. *)
Lemma all_effect (ns : list nat) (s : State) :
  let o := all w ns s in
  timely s o /\
  polls (outcomeState o) = polls s /\
  comments (outcomeState o) = comments s /\
  trace (outcomeState o) = trace s /\
  (forall u s', o = Fulfilled u s' -> forallb (accepts w) ns = true).
Proof.
  unfold all. destruct (forallb (accepts w) ns) eqn:Hall.
  - destruct (elapse_effect (slowest w ns) s) as [H1 [_ [H2 [H3 [H4 _]]]]].
    repeat split; auto.
  - unfold andThen.
    destruct (elapse_effect (firstRejection w ns) s) as [H1 [_ [H2 [H3 [H4 H5]]]]].
    destruct (elapse (firstRejection w ns) s) as [u s1|s1|s1|s1]; simpl in *;
      unfold reject; simpl; repeat split; auto; try discriminate; try apply H1.
Qed.

End Effects.

(** ** The functions of the source, one by one *)

Ltac leb_props :=
  repeat match goal with
         | H : (_ <=? _)%N = true |- _ => apply N.leb_le in H
         | H : (_ <=? _)%N = false |- _ => apply N.leb_gt in H
         end.

Ltac split_ifs :=
  repeat match goal with
         | |- context [if ?c then _ else _] => destruct c eqn:?
         end.

Ltac run_requests :=
  repeat (progress
            (cbv beta delta [andThen send await elapse record resolve reject
                             serverEffect];
             simpl; split_ifs));
  simpl; leb_props.

Section Functions.

Variable penv : ProcessEnv.
Variable w : World.

Lemma getIssueComments_effect (s : State) :
  (now s < MAX_TIMEOUT)%N ->
  let o := getIssueComments w s in
  timely s o /\
  polls (outcomeState o) = polls s /\
  comments (outcomeState o) = comments s /\
  trace (outcomeState o) = trace s ++ [(now s, GetComments)] /\
  (forall cs s', o = Fulfilled cs s' -> cs = firstn (perPage w) (comments s)).
Proof.
  intros Hnow. unfold getIssueComments. run_requests;
    repeat split; try reflexivity; try lia; try discriminate;
    intros cs s' H; injection H as <- _; reflexivity.
Qed.

Lemma fetchChecks_effect (s : State) :
  (now s < MAX_TIMEOUT)%N ->
  let o := fetchChecks w s in
  timely s o /\
  polls (outcomeState o) = S (polls s) /\
  comments (outcomeState o) = comments s /\
  trace (outcomeState o) = trace s ++ [(now s, GetCheckRuns)] /\
  (forall res s', o = Fulfilled res s' ->
     res = checksResponse (checksAt w (polls s))).
Proof.
  intros Hnow. unfold fetchChecks. run_requests;
    repeat split; try reflexivity; try lia; try discriminate;
    intros res s' H; injection H as <- _; reflexivity.
Qed.

Lemma sleep_effect (ms : N) (s : State) :
  (now s < MAX_TIMEOUT)%N ->
  let o := sleep ms s in
  timely s o /\
  polls (outcomeState o) = polls s /\
  comments (outcomeState o) = comments s /\
  trace (outcomeState o) = trace s ++ [(now s, Sleep ms)] /\
  (forall u s', o = Fulfilled u s' -> now s' = (now s + ms)%N).
Proof.
  intros Hnow. unfold sleep. run_requests;
    repeat split; try reflexivity; try lia; try discriminate;
    intros u s' H; injection H as _ <-; reflexivity.
Qed.

Lemma deleteCommentsFromAction_effect (cs : list Comment) (s : State) :
  let o := deleteCommentsFromAction w cs s in
  ((now s < MAX_TIMEOUT)%N -> timely s o) /\
  polls (outcomeState o) = polls s /\
  trace (outcomeState o) =
    trace s ++ map (fun c => (now s, DeleteComment (id c))) (filter isOwn cs) /\
  (forall c, In c (comments (outcomeState o)) -> In c (comments s)) /\
  (List.length (comments (outcomeState o)) <= List.length (comments s))%nat /\
  (forall u s', o = Fulfilled u s' ->
     forall c, In c (comments s') -> ~ In (id c) (map id (filter isOwn cs))) /\
  (filter isOwn cs = [] -> o = Fulfilled tt s).
Proof.
  unfold deleteCommentsFromAction.
  destruct (negb (truthyLength (filter isOwn cs))) eqn:E.
  - apply negb_true_iff, truthyLength_false in E. rewrite E. unfold resolve. simpl.
    rewrite app_nil_r. repeat split; auto; try lia.
  - apply negb_false_iff in E.
    assert (NE : filter isOwn cs <> []).
    { intros H. apply truthyLength_false in H. congruence. }
    destruct (mapP_deleteComment_effect w (filter isOwn cs) s)
      as [s1 [E1 [Hn [Hp [Ht [Hin [Hlen Hdel]]]]]]].
    unfold andThen. rewrite E1.
    destruct (all_effect w (seq (sent s) (List.length (filter isOwn cs))) s1)
      as [A1 [A2 [A3 [A4 A5]]]].
    set (o := all w (seq (sent s) (List.length (filter isOwn cs))) s1) in *.
    split.
    { intros _. destruct o; simpl in *; try rewrite <- Hn; auto. }
    split; [congruence|]. split; [congruence|].
    split; [intros c Hc; rewrite A3 in Hc; auto|].
    split; [rewrite A3; exact Hlen|].
    split; [|intros H; contradiction].
    intros u s' Ho c Hc. apply Hdel.
    + exact (A5 u s' Ho).
    + rewrite Ho in A3. simpl in A3. now rewrite <- A3.
Qed.

Lemma deleteExistingComments_effect (s : State) :
  (now s < MAX_TIMEOUT)%N ->
  let o := deleteExistingComments w s in
  timely s o /\
  polls (outcomeState o) = polls s /\
  (exists dels : list Comment, exists t : N,
     (now s <= t)%N /\ (t < MAX_TIMEOUT)%N /\
     trace (outcomeState o) =
       trace s ++ (now s, GetComments)
               :: map (fun c => (t, DeleteComment (id c))) dels) /\
  (forall c, In c (comments (outcomeState o)) -> In c (comments s)) /\
  (List.length (comments (outcomeState o)) <= List.length (comments s))%nat /\
  (forall u s', o = Fulfilled u s' ->
     forall c, In c (comments s') ->
       In c (firstn (perPage w) (comments s)) -> isOwn c = false).
Proof.
  intros Hnow. unfold deleteExistingComments, andThen.
  destruct (getIssueComments_effect s Hnow) as [G1 [G2 [G3 [G4 G5]]]].
  destruct (getIssueComments w s) as [cs s1|s1|s1|s1] eqn:EG; simpl in *.
  - specialize (G5 cs s1 eq_refl). subst cs.
    destruct G1 as [G1a G1b].
    destruct (deleteCommentsFromAction_effect (firstn (perPage w) (comments s)) s1)
      as [D1 [D2 [D3 [D4 [D5 [D6 _]]]]]].
    specialize (D1 G1b).
    set (o := deleteCommentsFromAction w (firstn (perPage w) (comments s)) s1) in *.
    split.
    { destruct o; simpl in *; auto; try lia. }
    split; [congruence|].
    split.
    { exists (filter isOwn (firstn (perPage w) (comments s))), (now s1).
      split; [exact G1a|]. split; [exact G1b|].
      rewrite D3, G4, <- app_assoc. reflexivity. }
    split; [intros c Hc; rewrite <- G3; auto|].
    split; [rewrite <- G3; exact D5|].
    intros u s' Ho c Hc Hfirst.
    destruct (isOwn c) eqn:Own; [|reflexivity].
    exfalso. apply (D6 u s' Ho c Hc).
    apply in_map. apply filter_In. now split.
  - destruct G1 as [G1a G1b].
    repeat split; auto; try lia; try discriminate.
    + exists [], (now s). simpl. repeat split; auto; lia.
    + now rewrite G3.
    + rewrite G3. lia.
  - repeat split; auto; try discriminate.
    + exists [], (now s). simpl. repeat split; auto; lia.
    + now rewrite G3.
    + rewrite G3. lia.
  - contradiction.
Qed.

End Functions.

(** ** The notifier loop *)

#[local] Arguments N.mul : simpl never.
#[local] Arguments N.add : simpl never.
#[local] Arguments N.of_nat : simpl never.

Section Loop.

Variable penv : ProcessEnv.
Variable w : World.

Lemma postGiphyGifForTag_effect (tag : string) (s : State) :
  (now s < MAX_TIMEOUT)%N ->
  let o := postGiphyGifForTag w tag s in
  let b := commentBody (gifFor w tag) in
  timely s o /\
  polls (outcomeState o) = polls s /\
  (forall u s', o = Fulfilled u s' ->
     comments s' = comments s ++ [mkComment (freshId (comments s)) b] /\
     exists t, (now s <= t)%N /\ (t < MAX_TIMEOUT)%N /\
       trace s' = trace s ++ [(now s, GetRandomGif tag); (t, PostComment b)]) /\
  (trace (outcomeState o) = trace s ++ [(now s, GetRandomGif tag)] \/
   exists t, (now s <= t)%N /\ (t < MAX_TIMEOUT)%N /\
     trace (outcomeState o) =
       trace s ++ [(now s, GetRandomGif tag); (t, PostComment b)]).
Proof.
  intros Hnow. unfold postGiphyGifForTag, getGiphyGifForTag, postCommentWithGif.
  run_requests; simpl in *;
    (split; [|split; [|split]]);
    try (simpl; lia); try reflexivity;
    try (intros u s' H;
         first [ discriminate H
               | injection H as _ <-; simpl;
                 split; [reflexivity|]; eexists; rewrite <- app_assoc; simpl;
                 split; [|split; [|reflexivity]]; lia ]);
    try (left; reflexivity);
    try (right; eexists; rewrite <- app_assoc; simpl;
         split; [|split; [|reflexivity]]; lia).
Qed.

(** One round of the loop, written out. *)
Lemma scanChecksAndPostGif_round (fuel : nat) (s : State) :
  scanChecksAndPostGif penv w (S fuel) s =
  match deleteExistingComments w s with
  | Fulfilled _ s1 =>
      match fetchChecks w s1 with
      | Fulfilled res s2 =>
          match getStatusOfChecks (GITHUB_ACTION penv) res with
          | FAILURE => postGiphyGifForTag w "thumbs-down" s2
          | SUCCESS => postGiphyGifForTag w "thumbs-up" s2
          | IN_PROGRESS =>
              match sleep POLL_DELAY s2 with
              | Fulfilled _ s3 => scanChecksAndPostGif penv w fuel s3
              | Rejected s3 => Rejected s3
              | TimedOut s3 => TimedOut s3
              | Unfinished s3 => Unfinished s3
              end
          end
      | Rejected s2 => Rejected s2
      | TimedOut s2 => TimedOut s2
      | Unfinished s2 => Unfinished s2
      end
  | Rejected s1 => Rejected s1
  | TimedOut s1 => TimedOut s1
  | Unfinished s1 => Unfinished s1
  end.
Proof.
  simpl. unfold andThen.
  destruct (deleteExistingComments w s); try reflexivity.
  destruct (fetchChecks w s0); try reflexivity.
  destruct (getStatusOfChecks (GITHUB_ACTION penv) a0); reflexivity.
Qed.

Lemma timely_trans {A : Type} (s s1 : State) (o : Outcome A) :
  (now s <= now s1)%N -> timely s1 o -> timely s o.
Proof. destruct o; simpl; intros; auto; lia. Qed.

(** With enough rounds allowed the loop always ends: it settles before
    the timer is due or is cut off exactly then. *)
Lemma scanChecksAndPostGif_timely (fuel : nat) (s : State) :
  (now s < MAX_TIMEOUT)%N ->
  (MAX_TIMEOUT <= now s + POLL_DELAY * N.of_nat fuel)%N ->
  timely s (scanChecksAndPostGif penv w fuel s).
Proof.
  revert s. induction fuel as [|fuel IH]; intros s Hnow Hfuel.
  - simpl in Hfuel. lia.
  - rewrite scanChecksAndPostGif_round.
    destruct (deleteExistingComments_effect w s Hnow) as [C1 _].
    destruct (deleteExistingComments w s) as [u1 s1|s1|s1|s1]; simpl in C1; auto.
    destruct C1 as [C1a C1b].
    destruct (fetchChecks_effect w s1 C1b) as [F1 _].
    destruct (fetchChecks w s1) as [res s2|s2|s2|s2]; simpl in F1; simpl; auto;
      try lia.
    destruct F1 as [F1a F1b].
    assert (Hs2 : (now s <= now s2)%N) by lia.
    destruct (getStatusOfChecks (GITHUB_ACTION penv) res).
    + apply (timely_trans s s2); [exact Hs2|].
      apply (postGiphyGifForTag_effect "thumbs-down" s2 F1b).
    + destruct (sleep_effect POLL_DELAY s2 F1b) as [S1 [_ [_ [_ S5]]]].
      destruct (sleep POLL_DELAY s2) as [u3 s3|s3|s3|s3]; simpl in S1; simpl; auto;
        try lia.
      specialize (S5 u3 s3 eq_refl). destruct S1 as [S1a S1b].
      apply (timely_trans s s3); [lia|].
      apply IH; [exact S1b|]. lia.
    + apply (timely_trans s s2); [exact Hs2|].
      apply (postGiphyGifForTag_effect "thumbs-up" s2 F1b).
Qed.

Lemma extends_one (s s' : State) (e : Event) :
  (now s < MAX_TIMEOUT)%N ->
  trace s' = trace s ++ [(now s, e)] ->
  extends s s' [e].
Proof.
  intros Hnow Ht. exists [(now s, e)]. split; [exact Ht|]. split; [|reflexivity].
  constructor; [simpl; lia | constructor].
Qed.

Lemma extends_trans (s s1 s2 : State) (e1 e2 : list Event) :
  (now s <= now s1)%N ->
  extends s s1 e1 -> extends s1 s2 e2 -> extends s s2 (e1 ++ e2).
Proof.
  intros Hle [a1 [T1 [S1 M1]]] [a2 [T2 [S2 M2]]].
  exists (a1 ++ a2). split; [|split].
  - rewrite T2, T1, app_assoc. reflexivity.
  - apply stamped_app; [exact S1|]. now apply (stamped_weaken (now s1)).
  - rewrite map_app. congruence.
Qed.

Lemma extends_cleanup (s s' : State) (dels : list Comment) (t : N) :
  (now s < MAX_TIMEOUT)%N -> (now s <= t)%N -> (t < MAX_TIMEOUT)%N ->
  trace s' = trace s ++ (now s, GetComments)
                     :: map (fun c => (t, DeleteComment (id c))) dels ->
  extends s s' (cleanupCalls dels).
Proof.
  intros Hnow Hle Ht Htr. eexists. split; [exact Htr|]. split.
  - constructor; [simpl; lia|]. apply Forall_forall. intros x Hx.
    apply in_map_iff in Hx. destruct Hx as [c [<- _]]. simpl. lia.
  - unfold cleanupCalls. simpl. f_equal. rewrite map_map. reflexivity.
Qed.

(** The last stage of a round whose status is terminal. *)
Lemma post_stage (tag : string) (k : nat) (s s2 : State) (dels : list Comment) :
  (now s <= now s2)%N -> (now s2 < MAX_TIMEOUT)%N ->
  extends s s2 (cleanupCalls dels ++ [GetCheckRuns]) ->
  tagFor (statusAt penv w k) = Some tag ->
  let o := postGiphyGifForTag w tag s2 in
  (exists evs, extends s (outcomeState o) evs /\
               RunShape penv w k (fulfilled o) evs) /\
  (forall u s', o = Fulfilled u s' ->
     comments s' =
     comments s2 ++ [mkComment (freshId (comments s2)) (commentBody (gifFor w tag))]).
Proof.
  intros Hle Hnow2 Hext Htag.
  destruct (postGiphyGifForTag_effect tag s2 Hnow2) as [P1 [P2 [P3 P4]]].
  simpl in *. set (o := postGiphyGifForTag w tag s2) in *.
  set (b := commentBody (gifFor w tag)) in *.
  assert (Two : forall s' t, (now s2 <= t)%N -> (t < MAX_TIMEOUT)%N ->
            trace s' = trace s2 ++ [(now s2, GetRandomGif tag); (t, PostComment b)] ->
            extends s s' (cleanupCalls dels ++
                          [GetCheckRuns; GetRandomGif tag; PostComment b])).
  { intros s' t H1 H2 Ht.
    replace (cleanupCalls dels ++ [GetCheckRuns; GetRandomGif tag; PostComment b])
      with ((cleanupCalls dels ++ [GetCheckRuns]) ++ [GetRandomGif tag; PostComment b])
      by (rewrite <- app_assoc; reflexivity).
    apply (extends_trans s s2); [exact Hle | exact Hext|].
    eexists. split; [exact Ht|]. split; [|reflexivity].
    repeat constructor; simpl; lia. }
  split.
  - destruct o as [u s'|s'|s'|s'] eqn:Eo; simpl in *.
    + destruct (P3 u s' eq_refl) as [_ [t [H1 [H2 Ht]]]].
      eexists. split; [exact (Two s' t H1 H2 Ht)|]. now apply in_post.
    + destruct P4 as [Ht | [t [H1 [H2 Ht]]]].
      * exists (cleanupCalls dels ++ [GetCheckRuns; GetRandomGif tag]). split.
        -- replace (cleanupCalls dels ++ [GetCheckRuns; GetRandomGif tag])
             with ((cleanupCalls dels ++ [GetCheckRuns]) ++ [GetRandomGif tag])
             by (rewrite <- app_assoc; reflexivity).
           apply (extends_trans s s2); [exact Hle | exact Hext|].
           now apply extends_one.
        -- now apply in_gif.
      * eexists. split; [exact (Two s' t H1 H2 Ht)|]. now apply in_post.
    + destruct P4 as [Ht | [t [H1 [H2 Ht]]]].
      * exists (cleanupCalls dels ++ [GetCheckRuns; GetRandomGif tag]). split.
        -- replace (cleanupCalls dels ++ [GetCheckRuns; GetRandomGif tag])
             with ((cleanupCalls dels ++ [GetCheckRuns]) ++ [GetRandomGif tag])
             by (rewrite <- app_assoc; reflexivity).
           apply (extends_trans s s2); [exact Hle | exact Hext|].
           now apply extends_one.
        -- now apply in_gif.
      * eexists. split; [exact (Two s' t H1 H2 Ht)|]. now apply in_post.
    + contradiction.
  - intros u s' Ho. exact (proj1 (P3 u s' Ho)).
Qed.

(** Every run of the loop leaves one of the event sequences of
    [RunShape]; a fulfilled run keeps some of the comments it found and
    adds the new one behind them.  When the listing is complete the
    comments kept are none of the action's own. *)
Lemma scanChecksAndPostGif_run (fuel : nat) (s : State) :
  (now s < MAX_TIMEOUT)%N ->
  (MAX_TIMEOUT <= now s + POLL_DELAY * N.of_nat fuel)%N ->
  let o := scanChecksAndPostGif penv w fuel s in
  (exists evs, extends s (outcomeState o) evs /\
               RunShape penv w (polls s) (fulfilled o) evs) /\
  (forall u s', o = Fulfilled u s' ->
     exists kept tag,
       comments s' = kept ++ [mkComment (freshId kept) (commentBody (gifFor w tag))] /\
       (forall c, In c kept -> In c (comments s)) /\
       ((List.length (comments s) <= perPage w)%nat ->
        forall c, In c kept -> isOwn c = false)).
Proof.
  revert s. induction fuel as [|fuel IH]; intros s Hnow Hfuel.
  { simpl in Hfuel. lia. }
  cbv zeta. rewrite scanChecksAndPostGif_round.
  destruct (deleteExistingComments_effect w s Hnow)
    as [C1 [C2 [[dels [t [Ct1 [Ct2 C3]]]] [C4 [C5 C6]]]]].
  pose proof (fun s' => extends_cleanup s s' dels t Hnow Ct1 Ct2) as Hclean.
  destruct (deleteExistingComments w s) as [u1 s1|s1|s1|s1]; simpl in *;
    try (split; [exists (cleanupCalls dels); split;
                 [now apply Hclean | apply in_cleanup] | discriminate]);
    try contradiction.
  destruct C1 as [C1a C1b]. specialize (C6 u1 s1 eq_refl).
  destruct (fetchChecks_effect w s1 C1b) as [F1 [F2 [F3 [F4 F5]]]].
  assert (Hfetch : forall s2, trace s2 = trace s1 ++ [(now s1, GetCheckRuns)] ->
             extends s s2 (cleanupCalls dels ++ [GetCheckRuns])).
  { intros s2 Ht. apply (extends_trans s s1); [exact C1a | now apply Hclean|].
    now apply extends_one. }
  destruct (fetchChecks w s1) as [res s2|s2|s2|s2]; simpl in *;
    try (split; [exists (cleanupCalls dels ++ [GetCheckRuns]); split;
                 [now apply Hfetch | apply in_fetch] | discriminate]);
    try contradiction.
  destruct F1 as [F1a F1b]. specialize (F5 res s2 eq_refl). subst res.
  rewrite C2 in *. fold (statusAt penv w (polls s)).
  assert (Hle2 : (now s <= now s2)%N) by lia.
  assert (Kept : forall c, In c (comments s2) -> In c (comments s))
    by (intros c Hc; rewrite F3 in Hc; auto).
  assert (Clean : (List.length (comments s) <= perPage w)%nat ->
                  forall c, In c (comments s2) -> isOwn c = false).
  { intros Hlen c Hc. rewrite F3 in Hc. apply C6; [exact Hc|].
    rewrite firstn_all2; [auto | exact Hlen]. }
  destruct (statusAt penv w (polls s)) eqn:Est.
  - destruct (post_stage "thumbs-down" (polls s) s s2 dels Hle2 F1b (Hfetch s2 F4))
      as [Q1 Q2]; [now rewrite Est|].
    split; [exact Q1|]. intros u s' Ho.
    exists (comments s2), "thumbs-down". split; [exact (Q2 u s' Ho)|]. now split.
  - destruct (sleep_effect POLL_DELAY s2 F1b) as [S1 [S2 [S3 [S4 S5]]]].
    assert (Hsleep : forall s3, trace s3 = trace s2 ++ [(now s2, Sleep POLL_DELAY)] ->
               extends s s3 (cleanupCalls dels ++ [GetCheckRuns; Sleep POLL_DELAY])).
    { intros s3 Ht.
      replace (cleanupCalls dels ++ [GetCheckRuns; Sleep POLL_DELAY])
        with ((cleanupCalls dels ++ [GetCheckRuns]) ++ [Sleep POLL_DELAY])
        by (rewrite <- app_assoc; reflexivity).
      apply (extends_trans s s2); [exact Hle2 | now apply Hfetch|].
      now apply extends_one. }
    destruct (sleep POLL_DELAY s2) as [u3 s3|s3|s3|s3]; simpl in *;
      try (split; [exists (cleanupCalls dels ++ [GetCheckRuns; Sleep POLL_DELAY]);
                   split; [now apply Hsleep | now apply in_sleep] | discriminate]);
      try contradiction.
    specialize (S5 u3 s3 eq_refl). destruct S1 as [S1a S1b].
    destruct (IH s3 S1b) as [[evs [E1 E2]] K]; [lia|].
    split.
    + exists ((cleanupCalls dels ++ [GetCheckRuns; Sleep POLL_DELAY]) ++ evs). split.
      * apply (extends_trans s s3); [lia | now apply Hsleep | exact E1].
      * rewrite <- app_assoc. apply next_round; [exact Est|].
        rewrite S2, F2 in E2. exact E2.
    + intros u s' Ho. destruct (K u s' Ho) as [kept [tag [K1 [K2 K3]]]].
      exists kept, tag. split; [exact K1|]. split.
      * intros c Hc. apply Kept. rewrite <- S3. auto.
      * intros Hlen c Hc.
        assert (In3 : In c (comments s2)) by (rewrite <- S3; auto).
        exact (Clean Hlen c In3).
  - destruct (post_stage "thumbs-up" (polls s) s s2 dels Hle2 F1b (Hfetch s2 F4))
      as [Q1 Q2]; [now rewrite Est|].
    split; [exact Q1|]. intros u s' Ho.
    exists (comments s2), "thumbs-up". split; [exact (Q2 u s' Ho)|]. now split.
Qed.

End Loop.

(** ** What the event sequences of [RunShape] have in common *)

Lemma count_app (p : Event -> bool) (l1 l2 : list Event) :
  count p (l1 ++ l2) = (count p l1 + count p l2)%nat.
Proof. unfold count. now rewrite filter_app, length_app. Qed.

Lemma count_deletions (p : Event -> bool) (dels : list Comment) :
  (forall i, p (DeleteComment i) = false) ->
  count p (map (fun c => DeleteComment (id c)) dels) = 0%nat.
Proof.
  intros Hp. unfold count. induction dels as [|c dels IH]; simpl; [reflexivity|].
  now rewrite Hp.
Qed.

Lemma count_cleanupCalls (p : Event -> bool) (dels : list Comment) :
  (forall i, p (DeleteComment i) = false) ->
  count p (cleanupCalls dels) = if p GetComments then 1%nat else 0%nat.
Proof.
  intros Hp. unfold cleanupCalls.
  change (GetComments :: map (fun c => DeleteComment (id c)) dels)
    with ([GetComments] ++ map (fun c => DeleteComment (id c)) dels).
  rewrite count_app, (count_deletions p dels Hp). unfold count. simpl.
  destruct (p GetComments); reflexivity.
Qed.

Lemma turns_app (l1 l2 : list Event) :
  turns (l1 ++ l2) = fold_left turnStep l2 (turns l1).
Proof. unfold turns. apply fold_left_app. Qed.

Lemma turns_cleanupCalls (dels : list Comment) :
  turns (cleanupCalls dels) = Some true.
Proof.
  unfold turns, cleanupCalls. simpl.
  induction dels as [|c dels IH]; simpl; [reflexivity | exact IH].
Qed.

Ltac count_shape :=
  repeat rewrite count_app;
  repeat (rewrite count_cleanupCalls; [|intros; reflexivity]);
  unfold count; simpl.

Section ShapeFacts.

Variable penv : ProcessEnv.
Variable w : World.

Lemma RunShape_head (k : nat) (ok : bool) (evs : list Event) :
  RunShape penv w k ok evs -> exists rest, evs = GetComments :: rest.
Proof. intros H. destruct H; unfold cleanupCalls; simpl; eexists; reflexivity. Qed.

(** Listings take turns, and there is one cleanup per round: one more
    than the sleeps when the run got past the last sleep. *)
Lemma RunShape_rounds (k : nat) (ok : bool) (evs : list Event) :
  RunShape penv w k ok evs ->
  (turns evs = Some true \/ turns evs = Some false) /\
  (count isSleep evs <= count isFetch evs)%nat /\
  (count isFetch evs <= count isList evs)%nat /\
  (count isList evs <= S (count isSleep evs))%nat /\
  (ok = true ->
   count isList evs = count isFetch evs /\
   count isList evs = S (count isSleep evs)).
Proof.
  intros H. induction H as [k dels|k dels|k dels tag Ht|k dels tag ok Ht
                           |k dels Hs|k dels ok rest Hs Hrest IH].
  - split; [left; apply turns_cleanupCalls|]. count_shape.
    repeat split; try lia; discriminate.
  - split; [right; rewrite turns_app, turns_cleanupCalls; reflexivity|].
    count_shape. repeat split; try lia; discriminate.
  - split; [right; rewrite turns_app, turns_cleanupCalls; reflexivity|].
    count_shape. repeat split; try lia; discriminate.
  - split; [right; rewrite turns_app, turns_cleanupCalls; reflexivity|].
    count_shape. repeat split; lia.
  - split; [right; rewrite turns_app, turns_cleanupCalls; reflexivity|].
    count_shape. repeat split; try lia; discriminate.
  - destruct IH as [T [I1 [I2 [I3 I4]]]]. split.
    + rewrite turns_app, turns_cleanupCalls, fold_left_app. simpl. exact T.
    + count_shape. fold (count isSleep rest) (count isFetch rest) (count isList rest).
      repeat split; try lia; destruct I4 as [J1 J2]; try assumption; lia.
Qed.

(** While every poll reports [IN_PROGRESS] nothing is posted and the
    chain is never fulfilled. *)
Lemma RunShape_in_progress (k : nat) (ok : bool) (evs : list Event) :
  (forall j, statusAt penv w j = IN_PROGRESS) ->
  RunShape penv w k ok evs ->
  ok = false /\ count isPost evs = 0%nat.
Proof.
  intros Hall H. induction H as [k dels|k dels|k dels tag Ht|k dels tag ok Ht
                                |k dels Hs|k dels ok rest Hs Hrest IH];
    try (rewrite Hall in Ht; discriminate);
    try (split; [reflexivity | count_shape; reflexivity]).
  destruct IH as [-> IH]. split; [reflexivity|].
  count_shape. fold (count isPost rest). lia.
Qed.

(** A fulfilled chain has posted exactly once, as its last step. *)
Lemma RunShape_fulfilled (k : nat) (evs : list Event) :
  RunShape penv w k true evs ->
  exists pre tag,
    evs = pre ++ [PostComment (commentBody (gifFor w tag))] /\
    count isPost pre = 0%nat.
Proof.
  intros H. remember true as ok eqn:Hok.
  induction H as [k dels|k dels|k dels tag Ht|k dels tag ok Ht
                 |k dels Hs|k dels ok rest Hs Hrest IH]; try discriminate.
  - exists (cleanupCalls dels ++ [GetCheckRuns; GetRandomGif tag]), tag. split.
    + rewrite <- app_assoc. reflexivity.
    + count_shape. reflexivity.
  - destruct (IH Hok) as [pre [tag [-> Hc]]].
    exists (cleanupCalls dels ++ [GetCheckRuns; Sleep POLL_DELAY] ++ pre), tag. split.
    + rewrite <- !app_assoc. reflexivity.
    + count_shape. fold (count isPost pre). lia.
Qed.

End ShapeFacts.

(** ** The process as a whole *)

Lemma includes_app_l (pre s sub : string) :
  includes s sub = true -> includes (pre ++ s) sub = true.
Proof.
  intros H. induction pre as [|a pre IH]; simpl; [exact H|].
  rewrite IH. apply orb_true_r.
Qed.

(** The comment the action posts bears the footer. *)
Lemma commentBody_isOwn (i : N) (gif : Gif) :
  isOwn (mkComment i (commentBody gif)) = true.
Proof.
  unfold isOwn, commentBody. simpl body.
  repeat apply includes_app_l. reflexivity.
Qed.

Lemma maxRounds_enough (w : World) :
  (MAX_TIMEOUT <= now (initialState w) + POLL_DELAY * N.of_nat maxRounds)%N.
Proof. apply N.leb_le. reflexivity. Qed.

(** A run that passes the entry guard always exits, at the latest when
    the timer is due, with code 0 exactly when the promise chain was
    fulfilled; what it did is one of the sequences of [RunShape]. *)
Lemma main_proceeds (penv : ProcessEnv) (w : World) :
  skipsEvent penv = false ->
  exists (r : Exit) (ok : bool),
    main penv w = Some r /\
    code r = (if ok then 0%Z else 1%Z) /\
    (if ok then (exitTime r < MAX_TIMEOUT)%N else (exitTime r <= MAX_TIMEOUT)%N) /\
    stamped 0 (events r) /\
    RunShape penv w 0 ok (map snd (events r)) /\
    (ok = true ->
     exists kept tag,
       finalComments r =
         kept ++ [mkComment (freshId kept) (commentBody (gifFor w tag))] /\
       (forall c, In c kept -> In c (initialComments w)) /\
       ((List.length (initialComments w) <= perPage w)%nat ->
        forall c, In c kept -> isOwn c = false)).
Proof.
  intros Hgo. unfold main. rewrite Hgo.
  assert (H0 : (now (initialState w) < MAX_TIMEOUT)%N) by reflexivity.
  pose proof (scanChecksAndPostGif_timely penv w maxRounds (initialState w) H0
                (maxRounds_enough w)) as T.
  destruct (scanChecksAndPostGif_run penv w maxRounds (initialState w) H0
              (maxRounds_enough w)) as [[evs [[added [A1 [A2 A3]]] Sh]] K].
  remember (scanChecksAndPostGif penv w maxRounds (initialState w)) as o eqn:E.
  clear E. change (trace (initialState w)) with (@nil (N * Event)) in A1.
  change (now (initialState w)) with 0%N in A2, T.
  change (polls (initialState w)) with 0%nat in Sh.
  change (comments (initialState w)) with (initialComments w) in K.
  rewrite app_nil_l in A1.
  destruct o as [u s|s|s|s]; simpl in *.
  - exists (exitWith 0%Z s), true. simpl. rewrite A1, A3.
    repeat split; try tauto. intros _. exact (K u s eq_refl).
  - exists (exitWith 1%Z s), false. simpl. rewrite A1, A3.
    repeat split; try tauto; try lia; discriminate.
  - exists (exitWith 1%Z s), false. simpl. rewrite A1, A3.
    repeat split; try tauto; try lia; discriminate.
  - contradiction.
Qed.

(** The process always exits. *)
Lemma main_total (penv : ProcessEnv) (w : World) :
  exists r : Exit, main penv w = Some r.
Proof.
  destruct (skipsEvent penv) eqn:E.
  - unfold main. rewrite E. eexists. reflexivity.
  - destruct (main_proceeds penv w E) as [r [_ [Hm _]]]. now exists r.
Qed.

(** *** Rounds and their order *)

Lemma phaseAfter_app (l1 l2 : list Event) :
  phaseAfter (l1 ++ l2) = fold_left stepPhase l2 (phaseAfter l1).
Proof. unfold phaseAfter. apply fold_left_app. Qed.

Lemma phaseAfter_cleanupCalls (dels : list Comment) :
  phaseAfter (cleanupCalls dels) = Some Cleaning.
Proof.
  unfold phaseAfter, cleanupCalls. simpl.
  induction dels as [|c dels IH]; simpl; [reflexivity | exact IH].
Qed.

Section Rounds.

Variable penv : ProcessEnv.
Variable w : World.

(** Every event of a run is in its place, and a fulfilled run has gone
    all the way to the post. *)
Lemma RunShape_phase (k : nat) (ok : bool) (evs : list Event) :
  RunShape penv w k ok evs ->
  phaseAfter evs <> None /\ (ok = true -> phaseAfter evs = Some Posted).
Proof.
  intros H. induction H as [k dels|k dels|k dels tag Ht|k dels tag ok Ht
                           |k dels Hs|k dels ok rest Hs Hrest IH];
    try (rewrite phaseAfter_app, phaseAfter_cleanupCalls; simpl;
         split; [discriminate | first [discriminate | reflexivity]]).
  - rewrite phaseAfter_cleanupCalls. split; discriminate.
  - rewrite phaseAfter_app, phaseAfter_cleanupCalls, fold_left_app. simpl.
    exact IH.
Qed.

(** A sleep follows an [IN_PROGRESS] poll only: the polls before the
    last sleep all reported it; a first poll that is terminal leaves one
    cleanup; the last poll of a fulfilled run is terminal. *)
Lemma RunShape_statuses (k : nat) (ok : bool) (evs : list Event) :
  RunShape penv w k ok evs ->
  (forall j, (k <= j < k + count isSleep evs)%nat ->
     statusAt penv w j = IN_PROGRESS) /\
  (statusAt penv w k <> IN_PROGRESS -> count isList evs = 1%nat) /\
  (ok = true -> statusAt penv w (k + count isSleep evs) <> IN_PROGRESS).
Proof.
  intros H. induction H as [k dels|k dels|k dels tag Ht|k dels tag ok Ht
                           |k dels Hs|k dels ok rest Hs Hrest IH].
  - count_shape. split; [intros j Hj; lia|]. split; [reflexivity | discriminate].
  - count_shape. split; [intros j Hj; lia|]. split; [reflexivity | discriminate].
  - count_shape. split; [intros j Hj; lia|]. split; [reflexivity | discriminate].
  - count_shape. split; [intros j Hj; lia|]. split; [reflexivity|].
    intros _. rewrite Nat.add_0_r. intros E. rewrite E in Ht. discriminate.
  - count_shape. split; [|split; [contradiction | discriminate]].
    intros j Hj. assert (j = k) by lia. now subst j.
  - destruct IH as [I1 [_ I3]]. count_shape. fold (count isSleep rest).
    split; [|split; [contradiction|]].
    + intros j Hj. destruct (Nat.eq_dec j k) as [-> | Hne]; [exact Hs|].
      apply I1. lia.
    + intros Hok. replace (k + S (count isSleep rest))%nat
        with (S k + count isSleep rest)%nat by lia.
      now apply I3.
Qed.

End Rounds.

(** C2, as the code has it: the cleanup belongs to the round.  In every
    run that passes the entry guard the first thing done is the comment
    listing, and the events keep the order of [stepPhase]: in each round
    the listing, then its deletions, then the check-run listing; a new
    round, with a cleanup of its own, after every sleep.  The number of
    cleanups is the number of sleeps or one more.  A sleep follows only
    a poll that reported [IN_PROGRESS], so a run whose first poll is
    terminal makes one cleanup.  A run that ends with code 0 has gone
    all the way to the post after as many cleanups as polls, one more
    than it has slept, and its last poll was terminal. *)
Theorem cleanup_runs_in_every_round (penv : ProcessEnv) (w : World) :
  skipsEvent penv = false ->
  exists r : Exit,
    main penv w = Some r /\
    (exists rest, map snd (events r) = GetComments :: rest) /\
    phaseAfter (map snd (events r)) <> None /\
    (count isSleep (map snd (events r)) <= count isFetch (map snd (events r)))%nat /\
    (count isFetch (map snd (events r)) <= count isList (map snd (events r)))%nat /\
    (count isList (map snd (events r)) <= S (count isSleep (map snd (events r))))%nat /\
    (forall j, (j < count isSleep (map snd (events r)))%nat ->
       statusAt penv w j = IN_PROGRESS) /\
    (statusAt penv w 0 <> IN_PROGRESS ->
     count isList (map snd (events r)) = 1%nat) /\
    (code r = 0%Z ->
     count isList (map snd (events r)) = count isFetch (map snd (events r)) /\
     count isList (map snd (events r)) = S (count isSleep (map snd (events r))) /\
     statusAt penv w (count isSleep (map snd (events r))) <> IN_PROGRESS /\
     phaseAfter (map snd (events r)) = Some Posted).
Proof.
  intros Hgo.
  destruct (main_proceeds penv w Hgo) as [r [ok [Hm [Hc [_ [_ [Sh _]]]]]]].
  exists r. split; [exact Hm|].
  split; [exact (RunShape_head penv w 0 ok _ Sh)|].
  destruct (RunShape_rounds penv w 0 ok _ Sh) as [_ [I1 [I2 [I3 I4]]]].
  destruct (RunShape_phase penv w 0 ok _ Sh) as [P1 P2].
  destruct (RunShape_statuses penv w 0 ok _ Sh) as [S1 [S2 S3]].
  split; [exact P1|]. split; [exact I1|]. split; [exact I2|]. split; [exact I3|].
  split; [intros j Hj; apply S1; lia|]. split; [exact S2|].
  intros Hcode.
  assert (Hok : ok = true) by (destruct ok; [reflexivity | rewrite Hc in Hcode; discriminate]).
  destruct (I4 Hok) as [J1 J2].
  split; [exact J1|]. split; [exact J2|]. split; [exact (S3 Hok) | exact (P2 Hok)].
Qed.

Lemma cleanup_runs_in_every_round_witness :
  exists r : Exit,
    main onOpened twoPolls = Some r /\
    count isList (map snd (events r)) = S (count isSleep (map snd (events r))) /\
    phaseAfter (map snd (events r)) = Some Posted.
Proof.
  destruct (cleanup_runs_in_every_round onOpened twoPolls eq_refl)
    as [r [Hm [_ [_ [_ [_ [_ [_ [_ H]]]]]]]]].
  exists r. split; [exact Hm|].
  assert (Hc : code r = 0%Z) by (vm_compute in Hm; injection Hm as <-; reflexivity).
  destruct (H Hc) as [_ [H2 [_ H4]]]. split; [exact H2 | exact H4].
Defined.

(** C2 as stated fails: with a first poll that is still in progress the
    comments are listed a second time, after the first poll and before
    the second. *)
Lemma cleanup_repeated_after_first_poll :
  exists r : Exit,
    main onOpened twoPolls = Some r /\
    code r = 0%Z /\
    map snd (events r) =
      [GetComments; DeleteComment 2; GetCheckRuns; Sleep 5000;
       GetComments; GetCheckRuns; GetRandomGif "thumbs-up";
       PostComment (commentBody (anyGif "thumbs-up"))] /\
    count isList (map snd (events r)) = 2%nat.
Proof. eexists. split; [vm_compute; reflexivity|]. repeat split. Qed.








(** Documents that are no objects: a truthy one has no action, a falsy
    one is taken for no document; both are skipped. *)
Example string_document_is_skipped :
  run (launchWith (Some (JString "opened"))) stuck =
  Some (mkExit 78 0 [] [oldComment]).
Proof. vm_compute. reflexivity. Qed.

Example false_document_is_skipped :
  run (launchWith (Some (JBool false))) stuck =
  Some (mkExit 78 0 [] [oldComment]).
Proof. vm_compute. reflexivity. Qed.

Example opened_document_runs_the_pipeline :
  option_map (fun r => (code r, map snd (events r)))
    (run (launchWith (Some openedDocument)) selfRunning) =
  Some (0%Z, [GetComments; GetCheckRuns; GetRandomGif "thumbs-up";
              PostComment (commentBody (anyGif "thumbs-up"))]).
Proof. vm_compute. reflexivity. Qed.

(** Scenario of the specification: a [closed] event in a workflow. *)
Example closed_event_is_skipped :
  main onClosed stuck = Some (mkExit 78 0 [] [oldComment]).
Proof. reflexivity. Qed.

Example closed_event_outside_workflow :
  main (mkProcessEnv None "self" (Some (mkEvent (Some "closed") 7))) stuck =
  Some (mkExit 0 0 [] [oldComment]).
Proof. vm_compute. reflexivity. Qed.

Example missing_event_is_skipped :
  main (mkProcessEnv (Some "CI") "self" None) stuck =
  Some (mkExit 78 0 [] [oldComment]).
Proof. vm_compute. reflexivity. Qed.

(** C6, as the code has it: a run that passes the entry guard always
    exits, no later than 300 s after its start; one that is still going
    at that time exits with code 1, and so does every run that does not
    exit with 0.  Nothing is sent at or after the deadline, but what was
    sent before it stays sent.  When every poll reports [IN_PROGRESS]
    the exit code is 1 and no comment is posted. *)
Theorem global_timeout (penv : ProcessEnv) (w : World) :
  skipsEvent penv = false ->
  exists r : Exit,
    main penv w = Some r /\
    (exitTime r <= MAX_TIMEOUT)%N /\
    (code r = 0%Z \/ code r = 1%Z) /\
    (exitTime r = MAX_TIMEOUT -> code r = 1%Z) /\
    (forall t e, In (t, e) (events r) -> (t < MAX_TIMEOUT)%N) /\
    ((forall k, statusAt penv w k = IN_PROGRESS) ->
     code r = 1%Z /\ count isPost (map snd (events r)) = 0%nat).
Proof.
  intros Hgo.
  destruct (main_proceeds penv w Hgo) as [r [ok [Hm [Hc [Ht [Hst [Sh _]]]]]]].
  exists r. split; [exact Hm|].
  split; [destruct ok; lia|].
  split; [destruct ok; auto|].
  split; [intros E; destruct ok; [lia | exact Hc]|].
  split.
  - intros t e Hin. unfold stamped in Hst. rewrite Forall_forall in Hst.
    exact (proj2 (Hst (t, e) Hin)).
  - intros Hall. destruct (RunShape_in_progress penv w 0 ok _ Hall Sh) as [-> Hp].
    split; [exact Hc | exact Hp].
Qed.

Lemma global_timeout_witness :
  exists r : Exit,
    main onOpened stuck = Some r /\
    code r = 1%Z /\ count isPost (map snd (events r)) = 0%nat.
Proof.
  destruct (global_timeout onOpened stuck eq_refl) as [r [Hm [_ [_ [_ [_ H]]]]]].
  exists r. split; [exact Hm|]. apply H. intros k. reflexivity.
Defined.

(** C6 as stated fails: the comment is sent three seconds into the run
    and the server stores it, but the answer is still outstanding when
    the timer fires at 300 s; the run exits with code 1 although the
    comment has been posted. *)
Lemma timer_fires_with_post_in_flight :
  exists r : Exit,
    main onOpened lateAnswer = Some r /\
    exitTime r = MAX_TIMEOUT /\
    code r = 1%Z /\
    events r =
      [(0%N, GetComments); (1000%N, GetCheckRuns);
       (2000%N, GetRandomGif "thumbs-up");
       (3000%N, PostComment (commentBody (anyGif "thumbs-up")))] /\
    count isPost (map snd (events r)) = 1%nat /\
    finalComments r = [mkComment 1 (commentBody (anyGif "thumbs-up"))].
Proof. eexists. split; [vm_compute; reflexivity|]. repeat split. Qed.

Example stuck_check_times_out :
  option_map (fun r => (code r, exitTime r, count isSleep (map snd (events r))))
    (main onOpened stuck) = Some (1%Z, 300000%N, 58%nat).
Proof. vm_compute. reflexivity. Qed.

Lemma filter_none {A : Type} (p : A -> bool) (l : list A) :
  (forall x, In x l -> p x = false) -> filter p l = [].
Proof.
  induction l as [|x l IH]; intros H; simpl; [reflexivity|].
  rewrite (H x (or_introl eq_refl)). apply IH. intros y Hy. apply H. now right.
Qed.

(** C7: [deleteCommentsFromAction] sends one deletion for each comment
    of the list whose body contains the footer, in the order of the
    list and all at the same instant, and sends nothing else; when no
    body contains the footer it is fulfilled on the spot and the state
    is untouched. *)
Theorem cleanup_deletes_exactly_own (w : World) (cs : list Comment) (s : State) :
  let o := deleteCommentsFromAction w cs s in
  let own := filter (fun c => includes (body c) commentFooter) cs in
  trace (outcomeState o) =
    trace s ++ map (fun c => (now s, DeleteComment (id c))) own /\
  (forall c, In c own <->
     In c cs /\ exists pre post, body c = (pre ++ "<sub>;)</sub>" ++ post)%string) /\
  ((forall c, In c cs -> includes (body c) commentFooter = false) ->
   o = Fulfilled tt s).
Proof.
  destruct (deleteCommentsFromAction_effect w cs s) as [_ [_ [Ht [_ [_ [_ Hnone]]]]]].
  split; [exact Ht|]. split.
  - intros c. rewrite filter_In, includes_spec. reflexivity.
  - intros H. apply Hnone. apply filter_none. exact H.
Qed.

Lemma cleanup_deletes_exactly_own_witness :
  trace (outcomeState
           (deleteCommentsFromAction stuck
              [mkComment 1 "hi"; mkComment 2 "ok <sub>;)</sub>"]
              (initialState stuck))) = [(0%N, DeleteComment 2)] /\
  deleteCommentsFromAction stuck [mkComment 1 "hi"] (initialState stuck) =
  Fulfilled tt (initialState stuck).
Proof.
  split.
  - exact (proj1 (cleanup_deletes_exactly_own stuck
                    [mkComment 1 "hi"; mkComment 2 "ok <sub>;)</sub>"]
                    (initialState stuck))).
  - apply (proj2 (proj2 (cleanup_deletes_exactly_own stuck [mkComment 1 "hi"]
                           (initialState stuck)))).
    intros c [<- | []]. reflexivity.
Defined.

(** The example of the specification: of [hi] and [ok <sub>;)</sub>]
    only the second is deleted. *)
Example cleanup_deletes_second_only (s : State) :
  trace (outcomeState
           (deleteCommentsFromAction stuck
              [mkComment 1 "hi"; mkComment 2 "ok <sub>;)</sub>"] s)) =
  trace s ++ [(now s, DeleteComment 2)].
Proof.
  exact (proj1 (proj2 (proj2 (deleteCommentsFromAction_effect stuck
                  [mkComment 1 "hi"; mkComment 2 "ok <sub>;)</sub>"] s)))).
Qed.

Example cleanup_without_match_is_noop (s : State) :
  deleteCommentsFromAction stuck [mkComment 1 "hi"; mkComment 3 "<sub>;)"] s =
  Fulfilled tt s.
Proof. reflexivity. Qed.

(** C8: [postCommentWithGif] sends exactly one request, a comment whose
    body is the markdown image with the gif's title as alternative text
    and its url as target, then a line feed, then the footer; a server
    that accepts it appends a comment with that body, which the next
    cleanup recognises as the action's own. *)
Theorem posted_comment_body (w : World) (gif : Gif) (s : State) :
  let o := postCommentWithGif w gif s in
  let image := ("![" ++ title gif ++ "](" ++ webp gif ++ ")")%string in
  let newline := String (Ascii.ascii_of_nat 10) EmptyString in
  let b := (image ++ newline ++ "<sub>;)</sub>")%string in
  trace (outcomeState o) = trace s ++ [(now s, PostComment b)] /\
  (accepts w (sent s) = true ->
   comments (outcomeState o) = comments s ++ [mkComment (freshId (comments s)) b]) /\
  includes b commentFooter = true.
Proof.
  assert (B : (("![" ++ title gif ++ "](" ++ webp gif ++ ")") ++
               String (Ascii.ascii_of_nat 10) EmptyString ++ "<sub>;)</sub>")%string
              = commentBody gif).
  { unfold commentBody, LF, commentFooter.
    rewrite !string_app_assoc. reflexivity. }
  cbv zeta. rewrite B. split; [|split].
  - unfold postCommentWithGif. run_requests; reflexivity.
  - intros Hacc. unfold postCommentWithGif. run_requests; try reflexivity; congruence.
  - exact (commentBody_isOwn 0 gif).
Qed.

Lemma posted_comment_body_witness :
  comments (outcomeState
              (postCommentWithGif stuck (mkGif "thumbs up" "https://g.co/a.webp")
                 (initialState stuck))) =
  [oldComment;
   mkComment 3 ("![thumbs up](https://g.co/a.webp)" ++ LF ++ "<sub>;)</sub>")].
Proof.
  apply (proj1 (proj2 (posted_comment_body stuck
                         (mkGif "thumbs up" "https://g.co/a.webp")
                         (initialState stuck)))).
  reflexivity.
Defined.

Example posted_comment_body_thumbs_up :
  commentBody (mkGif "thumbs up" "https://g.co/a.webp") =
  ("![thumbs up](https://g.co/a.webp)" ++ LF ++ "<sub>;)</sub>")%string.
Proof. reflexivity. Qed.

(** C9, as the code has it: when the comment listing is complete (the
    pull request has no more comments than one page holds), a run that
    passes the entry guard and exits with code 0 leaves exactly one
    comment with the footer: the comments kept are comments that were
    there before and bear no footer, the new comment comes after them,
    and posting it was the last step of the run and its only post. *)
Theorem single_own_comment_after_success (penv : ProcessEnv) (w : World) (r : Exit) :
  skipsEvent penv = false ->
  (List.length (initialComments w) <= perPage w)%nat ->
  main penv w = Some r ->
  code r = 0%Z ->
  List.length (filter isOwn (finalComments r)) = 1%nat /\
  (exists kept new,
     finalComments r = kept ++ [new] /\ isOwn new = true /\
     forall c, In c kept -> In c (initialComments w) /\ isOwn c = false) /\
  (exists pre b,
     map snd (events r) = pre ++ [PostComment b] /\ count isPost pre = 0%nat).
Proof.
  intros Hgo Hpage Hm Hc.
  destruct (main_proceeds penv w Hgo) as [r' [ok [Hm' [Hc' [_ [_ [Sh K]]]]]]].
  rewrite Hm in Hm'. injection Hm' as <-.
  destruct ok; [|rewrite Hc in Hc'; discriminate].
  destruct (K eq_refl) as [kept [tag [Hfin [Hin Hown]]]].
  specialize (Hown Hpage).
  split; [|split].
  - rewrite Hfin, filter_app, (filter_none isOwn kept Hown). simpl.
    now rewrite commentBody_isOwn.
  - exists kept, (mkComment (freshId kept) (commentBody (gifFor w tag))).
    split; [exact Hfin|]. split; [apply commentBody_isOwn|].
    intros c Hk. split; [exact (Hin c Hk) | exact (Hown c Hk)].
  - destruct (RunShape_fulfilled penv w 0 _ Sh) as [pre [tag' [E Hp]]].
    now exists pre, (commentBody (gifFor w tag')).
Qed.

Lemma single_own_comment_after_success_witness :
  exists r : Exit,
    main onOpened twoPolls = Some r /\
    List.length (filter isOwn (finalComments r)) = 1%nat.
Proof.
  assert (Hrun : exists r, main onOpened twoPolls = Some r /\ code r = 0%Z)
    by (eexists; split; vm_compute; reflexivity).
  destruct Hrun as [r [Hm Hc]].
  exists r. split; [exact Hm|].
  apply (single_own_comment_after_success onOpened twoPolls r).
  - reflexivity.
  - simpl. lia.
  - exact Hm.
  - exact Hc.
Defined.

(** C9 as stated fails: the listing returns the first thirty comments,
    the comment of the earlier run is the thirty-first, so it is not
    deleted and the run, which exits with code 0, leaves two comments with
    the footer. *)
Lemma unlisted_own_comment_survives :
  exists r : Exit,
    main onOpened crowded = Some r /\
    code r = 0%Z /\
    map snd (events r) =
      [GetComments; GetCheckRuns; GetRandomGif "thumbs-up";
       PostComment (commentBody (anyGif "thumbs-up"))] /\
    filter isOwn (finalComments r) =
      [mkComment 31 (commentBody (anyGif "thumbs-down"));
       mkComment 32 (commentBody (anyGif "thumbs-up"))] /\
    List.length (filter isOwn (finalComments r)) = 2%nat.
Proof. eexists. split; [vm_compute; reflexivity|]. repeat split. Qed.

(** Scenario of the specification: the action's own run in progress,
    the other run passed: one comment, tagged thumbs-up, and no sleep. *)
Example self_running_posts_at_once :
  option_map (fun r => (code r, map snd (events r))) (main onOpened selfRunning) =
  Some (0%Z, [GetComments; GetCheckRuns; GetRandomGif "thumbs-up";
              PostComment (commentBody (anyGif "thumbs-up"))]).
Proof. vm_compute. reflexivity. Qed.

(** * Further properties *)

(** ** Check aggregator *)

Lemma existsb_Permutation {A : Type} (p : A -> bool) (l l' : list A) :
  Permutation l l' -> existsb p l = existsb p l'.
Proof.
  intros HP. induction HP as [|x l l' HP IH|x y l|l l' l'' H1 IH1 H2 IH2]; simpl.
  - reflexivity.
  - now rewrite IH.
  - destruct (p x), (p y); reflexivity.
  - congruence.
Qed.

Lemma filter_Permutation {A : Type} (p : A -> bool) (l l' : list A) :
  Permutation l l' -> Permutation (filter p l) (filter p l').
Proof.
  intros HP. induction HP as [|x l l' HP IH|x y l|l l' l'' H1 IH1 H2 IH2]; simpl.
  - constructor.
  - destruct (p x); [now constructor | exact IH].
  - destruct (p x), (p y); try reflexivity. apply perm_swap.
  - now transitivity (filter p l').
Qed.

(** X1: the aggregate status does not depend on the order in which the
    check runs are listed. *)
Theorem getStatusOfChecks_order_independent (a : string) (runs runs' : list CheckRun) :
  Permutation runs runs' ->
  getStatusOfChecks a (checksResponse runs) =
  getStatusOfChecks a (checksResponse runs').
Proof.
  intros HP. rewrite !getStatusOfChecks_existsb. simpl.
  pose proof (filter_Permutation (notSelf a) runs runs' HP) as HF.
  now rewrite (existsb_Permutation isFailed _ _ HF),
              (existsb_Permutation isInProgress _ _ HF).
Qed.

Lemma getStatusOfChecks_order_independent_witness :
  getStatusOfChecks "self"
    (checksResponse [mkCheckRun "lint" "queued" None;
                     mkCheckRun "test" "completed" (Some "failure")]) =
  getStatusOfChecks "self"
    (checksResponse [mkCheckRun "test" "completed" (Some "failure");
                     mkCheckRun "lint" "queued" None]).
Proof.
  apply getStatusOfChecks_order_independent. apply perm_swap.
Defined.

(** X2: the status of two collections taken together is the more
    urgent of their statuses. *)
Theorem getStatusOfChecks_app (a : string) (runs1 runs2 : list CheckRun) :
  getStatusOfChecks a (checksResponse (runs1 ++ runs2)) =
  worst (getStatusOfChecks a (checksResponse runs1))
        (getStatusOfChecks a (checksResponse runs2)).
Proof.
  rewrite !getStatusOfChecks_existsb. simpl.
  rewrite filter_app, !existsb_app.
  destruct (existsb isFailed (filter (notSelf a) runs1)),
           (existsb isFailed (filter (notSelf a) runs2)),
           (existsb isInProgress (filter (notSelf a) runs1)),
           (existsb isInProgress (filter (notSelf a) runs2)); reflexivity.
Qed.

(** X3: each of the three results is returned in exactly one situation.
    [FAILURE] only if some run other than the action's own is completed
    with conclusion [failure]; [IN_PROGRESS] only if none is and some
    such run is queued or in progress; [SUCCESS] only if neither kind of
    run is present. *)
Theorem getStatusOfChecks_characterised (a : string) (runs : list CheckRun) :
  let failed := exists cr, In cr runs /\ name cr <> a /\
                  status cr = "completed" /\ conclusion cr = Some "failure" in
  let pending := exists cr, In cr runs /\ name cr <> a /\
                   (status cr = "queued" \/ status cr = "in_progress") in
  (getStatusOfChecks a (checksResponse runs) = FAILURE <-> failed) /\
  (getStatusOfChecks a (checksResponse runs) = IN_PROGRESS <-> ~ failed /\ pending) /\
  (getStatusOfChecks a (checksResponse runs) = SUCCESS <-> ~ failed /\ ~ pending).
Proof.
  cbv zeta. rewrite getStatusOfChecks_existsb. simpl.
  assert (F : existsb isFailed (filter (notSelf a) runs) = true <->
              exists cr, In cr runs /\ name cr <> a /\
                status cr = "completed" /\ conclusion cr = Some "failure").
  { rewrite existsb_filter_In. split; intros [cr [H1 [H2 H3]]]; exists cr.
    - apply notSelf_true in H2. apply isFailed_true in H3. tauto.
    - split; [exact H1|]. split; [now apply notSelf_true | now apply isFailed_true]. }
  assert (P : existsb isInProgress (filter (notSelf a) runs) = true <->
              exists cr, In cr runs /\ name cr <> a /\
                (status cr = "queued" \/ status cr = "in_progress")).
  { rewrite existsb_filter_In. split; intros [cr [H1 [H2 H3]]]; exists cr.
    - apply notSelf_true in H2. apply isInProgress_true in H3. tauto.
    - split; [exact H1|]. split; [now apply notSelf_true | now apply isInProgress_true]. }
  set (failed := exists cr, In cr runs /\ name cr <> a /\
                  status cr = "completed" /\ conclusion cr = Some "failure") in *.
  set (pending := exists cr, In cr runs /\ name cr <> a /\
                   (status cr = "queued" \/ status cr = "in_progress")) in *.
  assert (NF : existsb isFailed (filter (notSelf a) runs) = false -> ~ failed).
  { intros E H. apply F in H. congruence. }
  assert (NP : existsb isInProgress (filter (notSelf a) runs) = false -> ~ pending).
  { intros E H. apply P in H. congruence. }
  destruct (existsb isFailed (filter (notSelf a) runs)).
  - assert (Hf : failed) by (now apply F).
    repeat split; try discriminate; tauto.
  - specialize (NF eq_refl).
    destruct (existsb isInProgress (filter (notSelf a) runs)).
    + assert (Hp : pending) by (now apply P).
      repeat split; try discriminate; tauto.
    + specialize (NP eq_refl).
      repeat split; try discriminate; tauto.
Qed.

(** X4: a run whose status is none of [queued], [in_progress] and
    [completed] is passed over, whatever its conclusion: the status is
    the same with the run and without it. *)
Theorem unrecognised_status_is_ignored (a : string) (pre post : list CheckRun)
    (cr : CheckRun) :
  status cr <> "queued" ->
  status cr <> "in_progress" ->
  status cr <> "completed" ->
  getStatusOfChecks a (checksResponse (pre ++ cr :: post)) =
  getStatusOfChecks a (checksResponse (pre ++ post)).
Proof.
  intros Hq Hp Hc. apply getStatusOfChecks_ignores.
  assert (F : isFailed cr = false).
  { unfold isFailed. apply String.eqb_neq in Hc. now rewrite Hc. }
  assert (P : isInProgress cr = false).
  { unfold isInProgress. apply String.eqb_neq in Hq, Hp. now rewrite Hq, Hp. }
  rewrite F, P. apply andb_false_r.
Qed.

Lemma unrecognised_status_is_ignored_witness :
  getStatusOfChecks "self"
    (checksResponse [mkCheckRun "deploy" "waiting" (Some "failure");
                     mkCheckRun "test" "completed" (Some "success")]) =
  getStatusOfChecks "self"
    (checksResponse [mkCheckRun "test" "completed" (Some "success")]).
Proof.
  apply (unrecognised_status_is_ignored "self" []
           [mkCheckRun "test" "completed" (Some "success")]
           (mkCheckRun "deploy" "waiting" (Some "failure")));
    simpl; discriminate.
Defined.

(** ** Comment manager *)

Lemma filter_all_true {A : Type} (l : list A) : filter (fun _ => true) l = l.
Proof. induction l as [|x l IH]; simpl; [reflexivity | now rewrite IH]. Qed.

Lemma filter_andb {A : Type} (p q : A -> bool) (l : list A) :
  filter q (filter p l) = filter (fun x => p x && q x) l.
Proof.
  induction l as [|x l IH]; simpl; [reflexivity|].
  destruct (p x); simpl; [destruct (q x)|]; now rewrite IH.
Qed.

(** Removing comments keeps the ids of the others distinct. *)
Lemma distinct_ids_filter (keep : Comment -> bool) (cs : list Comment) :
  NoDup (map id cs) -> NoDup (map id (filter keep cs)).
Proof.
  intros Hnd. induction cs as [|c cs IH]; simpl; [constructor|].
  simpl in Hnd. apply NoDup_cons_iff in Hnd. destruct Hnd as [Hnew Hrest].
  destruct (keep c); simpl; [|now apply IH].
  apply NoDup_cons_iff. split; [|now apply IH].
  intros Hin. apply Hnew.
  apply in_map_iff in Hin. destruct Hin as [c' [Eid Hc']].
  apply filter_In in Hc'. apply in_map_iff. exists c'. tauto.
Qed.

Lemma NoDup_map_same {A B : Type} (f : A -> B) (l : list A) (x y : A) :
  NoDup (map f l) -> In x l -> In y l -> f x = f y -> x = y.
Proof.
  induction l as [|z l IH]; simpl; intros H Hx Hy E; [contradiction|].
  inversion H as [|u m Hn Hd]; subst.
  destruct Hx as [-> | Hx], Hy as [-> | Hy]; auto.
  - exfalso. apply Hn. rewrite E. now apply in_map.
  - exfalso. apply Hn. rewrite <- E. now apply in_map.
Qed.

Lemma In_firstn {A : Type} (n : nat) (l : list A) (x : A) :
  In x (firstn n l) -> In x l.
Proof.
  intros H. rewrite <- (firstn_skipn n l). apply in_or_app. now left.
Qed.

Lemma freshId_above (cs : list Comment) (c : Comment) :
  In c cs -> (id c < freshId cs)%N.
Proof.
  unfold freshId. induction cs as [|x cs IH]; simpl; intros H; [contradiction|].
  destruct H as [-> | H]; [lia|]. specialize (IH H). lia.
Qed.

Lemma NoDup_with_fresh (cs : list Comment) (b : string) :
  NoDup (map id cs) -> NoDup (map id (cs ++ [mkComment (freshId cs) b])).
Proof.
  intros H. rewrite map_app. simpl.
  apply NoDup_app; [exact H | repeat constructor; auto |].
  intros i Hi [<- | []]. apply in_map_iff in Hi. destruct Hi as [c [E Hc]].
  pose proof (freshId_above cs c Hc). lia.
Qed.

Section Comments.

Variable w : World.

(** The deletions of [l], as the server sees them: the comments left are
    those that pass a test [q], which lets through every comment whose
    id is not among the ids of [l] and, when all the requests are
    accepted, no other. *)
Lemma mapP_deleteComment_comments (l : list Comment) (s : State) :
  exists q s',
    mapP (deleteComment w) l s = Fulfilled (seq (sent s) (List.length l)) s' /\
    sent s' = (sent s + List.length l)%nat /\
    comments s' = filter q (comments s) /\
    (forall c, ~ In (id c) (map id l) -> q c = true) /\
    (forallb (accepts w) (seq (sent s) (List.length l)) = true ->
     forall c, In (id c) (map id l) -> q c = false).
Proof.
  revert s. induction l as [|x l IH]; intros s.
  - exists (fun _ => true), s. simpl. unfold resolve.
    rewrite filter_all_true. repeat split; auto; try lia; try contradiction.
  - simpl mapP. unfold andThen at 1. unfold deleteComment at 1. unfold send at 1.
    set (s1 := mkState (now s) (S (sent s)) (polls s)
                 (serverEffect w (sent s) (DeleteComment (id x)) (comments s))
                 (trace s ++ [(now s, DeleteComment (id x))])).
    destruct (IH s1) as [q [s' [E [Hs [Hc [Hk Hd]]]]]].
    set (q1 := fun c : Comment =>
                 if accepts w (sent s) then negb (N.eqb (id c) (id x)) else true).
    exists (fun c => q1 c && q c), s'. unfold andThen. rewrite E. unfold resolve.
    simpl in *. split; [reflexivity|]. split; [lia|]. split.
    + rewrite Hc, <- filter_andb. f_equal. unfold serverEffect, q1.
      destruct (accepts w (sent s)); [reflexivity | now rewrite filter_all_true].
    + split.
      * intros c Hn. rewrite Hk by tauto. unfold q1.
        destruct (accepts w (sent s)); [|reflexivity].
        destruct (N.eqb (id c) (id x)) eqn:Eq; [|reflexivity].
        apply N.eqb_eq in Eq. exfalso. apply Hn. left. now symmetry.
      * intros Hacc c Hin. apply andb_true_iff in Hacc. destruct Hacc as [Ha Hrest].
        unfold q1. rewrite Ha.
        destruct (N.eqb (id c) (id x)) eqn:Eq; [reflexivity|]. simpl.
        apply Hd; [exact Hrest|]. destruct Hin as [Hx | Hin]; [|exact Hin].
        apply N.eqb_neq in Eq. congruence.
Qed.

Lemma deleteCommentsFromAction_comments (cs : list Comment) (s : State) :
  let o := deleteCommentsFromAction w cs s in
  let own := filter isOwn cs in
  exists q,
    comments (outcomeState o) = filter q (comments s) /\
    (forall c, ~ In (id c) (map id own) -> q c = true) /\
    (fulfilled o = true ->
     sent (outcomeState o) = (sent s + List.length own)%nat /\
     forallb (accepts w) (seq (sent s) (List.length own)) = true /\
     forall c, In (id c) (map id own) -> q c = false).
Proof.
  cbv zeta. unfold deleteCommentsFromAction.
  destruct (negb (truthyLength (filter isOwn cs))) eqn:E.
  - apply negb_true_iff, truthyLength_false in E. rewrite E. unfold resolve. simpl.
    exists (fun _ => true). rewrite filter_all_true.
    repeat split; auto; try lia; try contradiction.
  - destruct (mapP_deleteComment_comments (filter isOwn cs) s)
      as [q [s1 [E1 [Hs [Hc [Hk Hd]]]]]].
    unfold andThen. rewrite E1.
    destruct (all_effect w (seq (sent s) (List.length (filter isOwn cs))) s1)
      as [_ [_ [A3 [_ A5]]]].
    exists q. rewrite A3. split; [exact Hc|]. split; [exact Hk|].
    intros Hf.
    destruct (all w (seq (sent s) (List.length (filter isOwn cs))) s1)
      as [u s'|s'|s'|s'] eqn:Ea; try discriminate.
    pose proof (A5 u s' eq_refl) as Hacc. split; [|split].
    + unfold all in Ea. rewrite Hacc in Ea.
      destruct (elapse_effect (slowest w (seq (sent s) (List.length (filter isOwn cs)))) s1)
        as [_ [E2 _]].
      rewrite Ea in E2. simpl in *. lia.
    + exact Hacc.
    + exact (Hd Hacc).
Qed.

(** X5: no tolerance for a failed deletion.  When
    [deleteCommentsFromAction] is fulfilled, every deletion it sent was
    accepted and no comment with the id of a footer-bearing comment of
    the list is left; one rejected deletion is enough for it not to be
    fulfilled. *)
Theorem cleanup_fulfilled_only_if_all_deleted (cs : list Comment) (s : State) :
  let o := deleteCommentsFromAction w cs s in
  let own := filter isOwn cs in
  (fulfilled o = true ->
   (forall j, (j < List.length own)%nat -> accepts w (sent s + j) = true) /\
   (forall c x, In c (comments (outcomeState o)) -> In x own -> id c <> id x)) /\
  (forall j, (j < List.length own)%nat -> accepts w (sent s + j) = false ->
   fulfilled o = false).
Proof.
  cbv zeta.
  destruct (deleteCommentsFromAction_comments cs s) as [q [Hc [_ Hf]]].
  assert (Acc : fulfilled (deleteCommentsFromAction w cs s) = true ->
                forall j, (j < List.length (filter isOwn cs))%nat ->
                          accepts w (sent s + j) = true).
  { intros H j Hj. destruct (Hf H) as [_ [Hall _]].
    rewrite forallb_forall in Hall. apply Hall. apply in_seq. lia. }
  split.
  - intros H. split; [exact (Acc H)|].
    intros c x Hin Hx E. destruct (Hf H) as [_ [_ Hd]].
    rewrite Hc in Hin. apply filter_In in Hin. destruct Hin as [_ Hq].
    rewrite Hd in Hq; [discriminate|]. rewrite E. now apply in_map.
  - intros j Hj Hrej.
    destruct (fulfilled (deleteCommentsFromAction w cs s)) eqn:E; [|reflexivity].
    rewrite (Acc eq_refl j Hj) in Hrej. discriminate.
Qed.

End Comments.

(** ** What a run does to the comments *)

Lemma andThen_outcomeState {A B : Type} (R : State -> State -> Prop)
    (p : Promise A) (k : A -> Promise B) (s : State) :
  (forall x y z, R x y -> R y z -> R x z) ->
  R s (outcomeState (p s)) ->
  (forall a s1, p s = Fulfilled a s1 -> R s1 (outcomeState (k a s1))) ->
  R s (outcomeState (andThen p k s)).
Proof.
  intros Tr Hp Hk. unfold andThen.
  destruct (p s) as [a s1|s1|s1|s1] eqn:E; simpl in *; auto.
  apply (Tr s s1); [exact Hp | now apply Hk].
Qed.

Lemma keepsOthers_refl (s : State) : keepsOthers s s.
Proof. intros H. split; auto. Qed.

Lemma keepsOthers_trans (x y z : State) :
  keepsOthers x y -> keepsOthers y z -> keepsOthers x z.
Proof.
  intros H1 H2 Hx. destruct (H1 Hx) as [Hy K1]. destruct (H2 Hy) as [Hz K2].
  split; [exact Hz|]. intros c Hc Ho. apply K2; [now apply K1 | exact Ho].
Qed.

Lemma keepsOthers_same (s s' : State) :
  comments s' = comments s -> keepsOthers s s'.
Proof. intros E H. rewrite E. split; auto. Qed.

Section CommentsOfARun.

Variable penv : ProcessEnv.
Variable w : World.

Lemma getIssueComments_state (s : State) :
  let o := getIssueComments w s in
  comments (outcomeState o) = comments s /\
  (forall cs s1, o = Fulfilled cs s1 ->
     cs = firstn (perPage w) (comments s) /\
     comments s1 = comments s /\
     sent s1 = S (sent s) /\ accepts w (sent s) = true /\
     trace s1 = trace s ++ [(now s, GetComments)]).
Proof.
  unfold getIssueComments. run_requests; split; try reflexivity;
    intros cs s1 H; try discriminate H; injection H as <- <-; auto.
Qed.

Lemma fetchChecks_state (s : State) :
  let o := fetchChecks w s in
  comments (outcomeState o) = comments s /\
  (forall res s1, o = Fulfilled res s1 ->
     comments s1 = comments s /\
     sent s1 = S (sent s) /\ accepts w (sent s) = true /\
     trace s1 = trace s ++ [(now s, GetCheckRuns)]).
Proof.
  unfold fetchChecks. run_requests; split; try reflexivity;
    intros cs s1 H; try discriminate H; injection H as <- <-; auto.
Qed.

Lemma sleep_state (ms : N) (s : State) :
  let o := sleep ms s in
  comments (outcomeState o) = comments s /\
  (forall u s1, o = Fulfilled u s1 ->
     comments s1 = comments s /\ sent s1 = sent s /\
     trace s1 = trace s ++ [(now s, Sleep ms)]).
Proof.
  unfold sleep. run_requests; split; try reflexivity;
    intros u s1 H; try discriminate H; injection H as _ <-; auto.
Qed.

Lemma postGiphyGifForTag_state (tag : string) (s : State) :
  let o := postGiphyGifForTag w tag s in
  let new := mkComment (freshId (comments s)) (commentBody (gifFor w tag)) in
  (comments (outcomeState o) = comments s \/
   comments (outcomeState o) = comments s ++ [new]) /\
  (forall u s1, o = Fulfilled u s1 ->
     comments s1 = comments s ++ [new] /\
     sent s1 = S (S (sent s)) /\
     accepts w (sent s) = true /\ accepts w (S (sent s)) = true /\
     map snd (trace s1) =
       map snd (trace s) ++
       [GetRandomGif tag; PostComment (commentBody (gifFor w tag))]).
Proof.
  unfold postGiphyGifForTag, getGiphyGifForTag, postCommentWithGif.
  run_requests; simpl in *; split; auto;
    intros u s1 H; try discriminate H; injection H as _ <-; simpl;
    repeat split; auto;
    rewrite !map_app, <- app_assoc; reflexivity.
Qed.

Lemma deleteExistingComments_keepsOthers (s : State) :
  keepsOthers s (outcomeState (deleteExistingComments w s)).
Proof.
  unfold deleteExistingComments.
  apply andThen_outcomeState; [exact keepsOthers_trans | |].
  - apply keepsOthers_same. apply getIssueComments_state.
  - intros cs s1 E.
    destruct (proj2 (getIssueComments_state s) cs s1 E) as [-> [Hc _]].
    destruct (deleteCommentsFromAction_comments w (firstn (perPage w) (comments s)) s1)
      as [q [Hq [Hk _]]].
    intros Hnd. rewrite Hq. split; [now apply distinct_ids_filter|].
    intros c Hin Hown. apply filter_In. split; [exact Hin|]. apply Hk.
    intros Hid. apply in_map_iff in Hid. destruct Hid as [x [Ex Hx]].
    apply filter_In in Hx. destruct Hx as [Hx Hxo].
    apply In_firstn in Hx. rewrite <- Hc in Hx.
    assert (x = c) by (apply (NoDup_map_same id (comments s1)); auto).
    subst x. congruence.
Qed.

Lemma postGiphyGifForTag_keepsOthers (tag : string) (s : State) :
  keepsOthers s (outcomeState (postGiphyGifForTag w tag s)).
Proof.
  destruct (postGiphyGifForTag_state tag s) as [[E | E] _]; intros Hnd; rewrite E.
  - split; auto.
  - split; [now apply NoDup_with_fresh|]. intros c Hc _. apply in_or_app. now left.
Qed.

(** Whatever way the loop ends, the comments without footer are still
    there. *)
Lemma scanChecksAndPostGif_keepsOthers (fuel : nat) (s : State) :
  keepsOthers s (outcomeState (scanChecksAndPostGif penv w fuel s)).
Proof.
  revert s. induction fuel as [|fuel IH]; intros s; simpl.
  - apply keepsOthers_refl.
  - apply andThen_outcomeState; [exact keepsOthers_trans | |].
    + apply deleteExistingComments_keepsOthers.
    + intros _ s1 _.
      apply andThen_outcomeState; [exact keepsOthers_trans | |].
      * apply keepsOthers_same. apply fetchChecks_state.
      * intros res s2 _.
        destruct (getStatusOfChecks (GITHUB_ACTION penv) res).
        -- apply postGiphyGifForTag_keepsOthers.
        -- apply andThen_outcomeState; [exact keepsOthers_trans | |].
           ++ apply keepsOthers_same. apply sleep_state.
           ++ intros _ s3 _. apply IH.
        -- apply postGiphyGifForTag_keepsOthers.
Qed.

(** X6: the action never removes anybody else's comment.  With distinct
    comment ids, every comment without the footer that was on the pull
    request at the start is still there when the process exits, whether
    it exits with 0, with 1 or with the neutral code. *)
Theorem other_comments_survive (r : Exit) (c : Comment) :
  NoDup (map id (initialComments w)) ->
  main penv w = Some r ->
  In c (initialComments w) ->
  isOwn c = false ->
  In c (finalComments r).
Proof.
  intros Hnd Hm Hin Hown. unfold main in Hm.
  destruct (skipsEvent penv).
  - injection Hm as <-. exact Hin.
  - pose proof (scanChecksAndPostGif_keepsOthers maxRounds (initialState w)) as K.
    destruct (K Hnd) as [_ Keep]. specialize (Keep c Hin Hown).
    destruct (scanChecksAndPostGif penv w maxRounds (initialState w));
      try discriminate; injection Hm as <-; exact Keep.
Qed.

End CommentsOfARun.

(** ** Runs that end with code 0 *)

Lemma count_all (p : Event -> bool) (l : list Event) :
  (forall e, In e l -> p e = true) -> count p l = List.length l.
Proof.
  unfold count. induction l as [|e l IH]; simpl; intros H; [reflexivity|].
  rewrite (H e (or_introl eq_refl)). simpl. f_equal. apply IH.
  intros e' He'. apply H. now right.
Qed.

Section SuccessfulRuns.

Variable penv : ProcessEnv.
Variable w : World.

Lemma answered_request (s s1 : State) (t : N) (e : Event) :
  answered w s -> isRequest e = true ->
  sent s1 = S (sent s) -> accepts w (sent s) = true ->
  trace s1 = trace s ++ [(t, e)] ->
  answered w s1.
Proof.
  intros [A1 A2] He Hs Ha Ht. split.
  - rewrite Hs, Ht, map_app, count_app, A1. unfold count. simpl.
    rewrite He. simpl. lia.
  - intros n Hn. rewrite Hs in Hn.
    destruct (Nat.eq_dec n (sent s)) as [-> | Hne]; [exact Ha | apply A2; lia].
Qed.

Lemma deleteExistingComments_fulfilled (s s1 : State) (u : unit) :
  deleteExistingComments w s = Fulfilled u s1 ->
  (answered w s -> answered w s1) /\
  (NoDup (map id (comments s)) ->
   (List.length (comments s) <= perPage w)%nat ->
   comments s1 = filter notOwn (comments s)).
Proof.
  intros H. unfold deleteExistingComments, andThen in H.
  destruct (getIssueComments w s) as [cs s0|s0|s0|s0] eqn:EG; try discriminate.
  destruct (proj2 (getIssueComments_state w s) cs s0 EG)
    as [-> [Hc0 [Hs0 [Ha0 Ht0]]]].
  destruct (deleteCommentsFromAction_comments w (firstn (perPage w) (comments s)) s0)
    as [q [Hq [Hk Hf]]].
  destruct (deleteCommentsFromAction_effect w (firstn (perPage w) (comments s)) s0)
    as [_ [_ [Ht _]]].
  rewrite H in *. simpl in *. destruct (Hf eq_refl) as [Hsent [Hall Hd]].
  set (own := filter isOwn (firstn (perPage w) (comments s))) in *.
  split.
  - intros A.
    assert (A0 : answered w s0)
      by (apply (answered_request s s0 (now s) GetComments); auto).
    destruct A0 as [B1 B2]. split.
    + rewrite Hsent, Ht, map_app, count_app, B1, map_map. simpl.
      rewrite (count_all isRequest (map (fun c => DeleteComment (id c)) own));
        [now rewrite length_map|].
      intros e He. apply in_map_iff in He. destruct He as [c [<- _]]. reflexivity.
    + intros n Hn. rewrite Hsent in Hn.
      destruct (Nat.lt_ge_cases n (sent s0)) as [Hlt | Hge]; [now apply B2|].
      rewrite forallb_forall in Hall. apply Hall. apply in_seq. lia.
  - intros Hnd Hlen. rewrite Hq, Hc0. apply filter_ext_in. intros c Hin.
    unfold notOwn. destruct (isOwn c) eqn:Eo; simpl.
    + apply Hd. apply in_map. apply filter_In. split; [|exact Eo].
      rewrite firstn_all2; [exact Hin | exact Hlen].
    + apply Hk. intros Hid. apply in_map_iff in Hid. destruct Hid as [x [Ex Hx]].
      apply filter_In in Hx. destruct Hx as [Hx Hxo]. apply In_firstn in Hx.
      assert (x = c) by (apply (NoDup_map_same id (comments s)); auto).
      subst x. congruence.
Qed.

Lemma postGiphyGifForTag_fulfilled (tag : string) (s s1 : State) (u : unit) :
  postGiphyGifForTag w tag s = Fulfilled u s1 ->
  (answered w s -> answered w s1) /\
  comments s1 =
    comments s ++ [mkComment (freshId (comments s)) (commentBody (gifFor w tag))].
Proof.
  intros H.
  destruct (proj2 (postGiphyGifForTag_state w tag s) u s1 H)
    as [Hc [Hs [Ha1 [Ha2 Ht]]]].
  split; [|exact Hc]. intros [A1 A2]. split.
  - rewrite Hs, Ht, count_app, A1. unfold count. simpl. lia.
  - intros n Hn. rewrite Hs in Hn.
    destruct (Nat.eq_dec n (S (sent s))) as [-> | H1]; [exact Ha2|].
    destruct (Nat.eq_dec n (sent s)) as [-> | H2]; [exact Ha1 | apply A2; lia].
Qed.

(** A fulfilled loop: all its requests were accepted; with distinct ids
    and a complete listing the comments it leaves are the ones without
    footer, in their order, followed by the new comment. *)
Lemma scanChecksAndPostGif_fulfilled (fuel : nat) (s s' : State) (u : unit) :
  scanChecksAndPostGif penv w fuel s = Fulfilled u s' ->
  (answered w s -> answered w s') /\
  (NoDup (map id (comments s)) ->
   (List.length (comments s) <= perPage w)%nat ->
   exists tag,
     comments s' =
     filter notOwn (comments s) ++
     [mkComment (freshId (filter notOwn (comments s))) (commentBody (gifFor w tag))]).
Proof.
  revert s. induction fuel as [|fuel IH]; intros s H; [discriminate|].
  rewrite scanChecksAndPostGif_round in H.
  destruct (deleteExistingComments w s) as [u1 s1|s1|s1|s1] eqn:EC; try discriminate.
  destruct (deleteExistingComments_fulfilled s s1 u1 EC) as [CA CC].
  destruct (fetchChecks w s1) as [res s2|s2|s2|s2] eqn:EF; try discriminate.
  destruct (proj2 (fetchChecks_state w s1) res s2 EF) as [Fc [Fs [Fa Ft]]].
  assert (FA : answered w s1 -> answered w s2)
    by (intros A; apply (answered_request s1 s2 (now s1) GetCheckRuns); auto).
  assert (Post : forall tag, postGiphyGifForTag w tag s2 = Fulfilled u s' ->
            (answered w s -> answered w s') /\
            (NoDup (map id (comments s)) ->
             (List.length (comments s) <= perPage w)%nat ->
             exists tag0,
               comments s' =
               filter notOwn (comments s) ++
               [mkComment (freshId (filter notOwn (comments s)))
                          (commentBody (gifFor w tag0))])).
  { intros tag HP. destruct (postGiphyGifForTag_fulfilled tag s2 s' u HP) as [PA PC].
    split; [auto|]. intros Hnd Hlen. exists tag.
    rewrite PC, Fc, (CC Hnd Hlen). reflexivity. }
  destruct (getStatusOfChecks (GITHUB_ACTION penv) res).
  - exact (Post "thumbs-down" H).
  - destruct (sleep POLL_DELAY s2) as [u3 s3|s3|s3|s3] eqn:ES; try discriminate.
    destruct (proj2 (sleep_state POLL_DELAY s2) u3 s3 ES) as [Sc [Ss St]].
    destruct (IH s3 H) as [IA IC]. split.
    + intros A. apply IA. destruct (FA (CA A)) as [B1 B2]. split.
      * rewrite Ss, St, map_app, count_app, B1. unfold count. simpl. lia.
      * intros n Hn. apply B2. now rewrite <- Ss.
    + intros Hnd Hlen.
      assert (E3 : comments s3 = filter notOwn (comments s))
        by (rewrite Sc, Fc; exact (CC Hnd Hlen)).
      destruct IC as [tag Htag].
      * rewrite E3. now apply distinct_ids_filter.
      * rewrite E3. pose proof (filter_length_le notOwn (comments s)). lia.
      * exists tag. rewrite Htag, E3, filter_filter_same. reflexivity.
  - exact (Post "thumbs-up" H).
Qed.

Lemma main_success (r : Exit) :
  skipsEvent penv = false ->
  main penv w = Some r ->
  code r = 0%Z ->
  exists s' u,
    scanChecksAndPostGif penv w maxRounds (initialState w) = Fulfilled u s' /\
    r = exitWith 0%Z s'.
Proof.
  intros Hgo Hm Hc. unfold main in Hm. rewrite Hgo in Hm.
  destruct (scanChecksAndPostGif penv w maxRounds (initialState w)) as [u s'|s'|s'|s'];
    try discriminate; injection Hm as <-; try discriminate Hc.
  now exists s', u.
Qed.

Lemma main_success_comments (r : Exit) :
  skipsEvent penv = false ->
  NoDup (map id (initialComments w)) ->
  (List.length (initialComments w) <= perPage w)%nat ->
  main penv w = Some r ->
  code r = 0%Z ->
  exists tag,
    finalComments r =
    filter notOwn (initialComments w) ++
    [mkComment (freshId (filter notOwn (initialComments w)))
               (commentBody (gifFor w tag))].
Proof.
  intros Hgo Hnd Hlen Hm Hc.
  destruct (main_success r Hgo Hm Hc) as [s' [u [E ->]]].
  exact (proj2 (scanChecksAndPostGif_fulfilled _ _ _ _ E) Hnd Hlen).
Qed.

(** X7: what a successful run leaves on the pull request.  With
    distinct comment ids and a complete listing, the comments after a
    run that exits with code 0 are exactly the comments without footer
    that were there before, in their order, followed by one new comment
    whose body is the one [postCommentWithGif] builds. *)
Theorem success_replaces_own_comments (r : Exit) :
  skipsEvent penv = false ->
  NoDup (map id (initialComments w)) ->
  (List.length (initialComments w) <= perPage w)%nat ->
  main penv w = Some r ->
  code r = 0%Z ->
  exists i tag,
    finalComments r =
    filter (fun c => negb (includes (body c) commentFooter)) (initialComments w) ++
    [mkComment i (commentBody (gifFor w tag))].
Proof.
  intros Hgo Hnd Hlen Hm Hc.
  destruct (main_success_comments r Hgo Hnd Hlen Hm Hc) as [tag Ht].
  exists (freshId (filter notOwn (initialComments w))), tag. exact Ht.
Qed.

(** X9: no partial success.  A run exits with code 0 only if every
    request it sent, deletions included, was accepted. *)
Theorem success_means_every_request_accepted (r : Exit) (n : nat) :
  skipsEvent penv = false ->
  main penv w = Some r ->
  code r = 0%Z ->
  (n < count isRequest (map snd (events r)))%nat ->
  accepts w n = true.
Proof.
  intros Hgo Hm Hc Hn.
  destruct (main_success r Hgo Hm Hc) as [s' [u [E ->]]].
  assert (A0 : answered w (initialState w)) by (split; [reflexivity | simpl; lia]).
  destruct (proj1 (scanChecksAndPostGif_fulfilled _ _ _ _ E) A0) as [A1 A2].
  apply A2. simpl in Hn. now rewrite A1.
Qed.

End SuccessfulRuns.

(** X8: running the action again replaces its comment.  With distinct
    comment ids and listings that return all the comments in both runs:
    if a second run starts from the comments a successful first run has
    left and succeeds too, the pull request has the same comments by
    others, in the same order, and again one comment of the action
    behind them; the number of comments does not grow. *)
Theorem rerun_replaces_comment (penv1 penv2 : ProcessEnv) (w1 w2 : World)
    (r1 r2 : Exit) :
  skipsEvent penv1 = false ->
  skipsEvent penv2 = false ->
  NoDup (map id (initialComments w1)) ->
  (List.length (initialComments w1) <= perPage w1)%nat ->
  main penv1 w1 = Some r1 ->
  code r1 = 0%Z ->
  initialComments w2 = finalComments r1 ->
  (List.length (finalComments r1) <= perPage w2)%nat ->
  main penv2 w2 = Some r2 ->
  code r2 = 0%Z ->
  (exists new2,
     finalComments r2 =
       filter (fun c => negb (includes (body c) commentFooter)) (initialComments w1)
       ++ [new2] /\
     includes (body new2) commentFooter = true) /\
  List.length (finalComments r2) = List.length (finalComments r1).
Proof.
  intros Hgo1 Hgo2 Hnd Hlen Hm1 Hc1 Hinit Hlen2 Hm2 Hc2.
  destruct (main_success_comments penv1 w1 r1 Hgo1 Hnd Hlen Hm1 Hc1) as [tag1 F1].
  set (K := filter notOwn (initialComments w1)) in *.
  assert (Hnd2 : NoDup (map id (initialComments w2))).
  { rewrite Hinit, F1. apply NoDup_with_fresh. now apply distinct_ids_filter. }
  assert (Hlen2' : (List.length (initialComments w2) <= perPage w2)%nat)
    by (now rewrite Hinit).
  destruct (main_success_comments penv2 w2 r2 Hgo2 Hnd2 Hlen2' Hm2 Hc2) as [tag2 F2].
  assert (EK : filter notOwn (initialComments w2) = K).
  { rewrite Hinit, F1, filter_app. unfold K at 1. rewrite filter_filter_same.
    simpl. unfold notOwn at 2. rewrite commentBody_isOwn. simpl.
    fold K. apply app_nil_r. }
  rewrite EK in F2. split.
  - eexists. split; [exact F2|]. apply (commentBody_isOwn 0).
  - rewrite F2, F1, !length_app. reflexivity.
Qed.

Lemma rerun_replaces_comment_witness :
  exists r2 : Exit,
    main onOpened secondRun = Some r2 /\
    List.length (finalComments r2) = 2%nat.
Proof.
  assert (H1 : exists r, main onOpened twoPolls = Some r /\ code r = 0%Z /\
                 finalComments r = initialComments secondRun)
    by (eexists; split; [vm_compute; reflexivity | split; vm_compute; reflexivity]).
  assert (H2 : exists r, main onOpened secondRun = Some r /\ code r = 0%Z)
    by (eexists; split; vm_compute; reflexivity).
  destruct H1 as [r1 [Hm1 [Hc1 Hf1]]]. destruct H2 as [r2 [Hm2 Hc2]].
  exists r2. split; [exact Hm2|].
  assert (N1 : NoDup (map id (initialComments twoPolls)))
    by (simpl; repeat constructor; simpl; intuition discriminate).
  assert (L1 : (List.length (initialComments twoPolls) <= perPage twoPolls)%nat)
    by (simpl; lia).
  assert (L2 : (List.length (finalComments r1) <= perPage secondRun)%nat)
    by (rewrite Hf1; simpl; lia).
  rewrite (proj2 (rerun_replaces_comment onOpened onOpened twoPolls secondRun r1 r2
                    eq_refl eq_refl N1 L1 Hm1 Hc1 (eq_sym Hf1) L2 Hm2 Hc2)).
  rewrite Hf1. reflexivity.
Defined.

(** ** The gif that is posted *)

Section PostedGif.

Variable penv : ProcessEnv.
Variable w : World.


Lemma RunShape_single_post (k : nat) (ok : bool) (evs : list Event) :
  RunShape penv w k ok evs ->
  (count isPost evs <= count isGif evs)%nat /\ (count isGif evs <= 1)%nat.
Proof.
  intros H. induction H as [k dels|k dels|k dels tag Ht|k dels tag ok Ht
                           |k dels Hs|k dels ok rest Hs Hrest IH];
    try (count_shape; lia).
  count_shape. fold (count isPost rest) (count isGif rest). lia.
Qed.


(** X11: in no run is more than one gif searched or more than one
    comment posted, and a comment is posted only after the search. *)
Theorem at_most_one_post (r : Exit) :
  main penv w = Some r ->
  (count isPost (map snd (events r)) <= count isGif (map snd (events r)))%nat /\
  (count isGif (map snd (events r)) <= 1)%nat.
Proof.
  intros Hm. destruct (skipsEvent penv) eqn:Hgo.
  - unfold main in Hm. rewrite Hgo in Hm. injection Hm as <-. simpl.
    unfold count. simpl. lia.
  - destruct (main_proceeds penv w Hgo) as [r' [ok [Hm' [_ [_ [_ [Sh _]]]]]]].
    rewrite Hm in Hm'. injection Hm' as <-.
    exact (RunShape_single_post 0 ok _ Sh).
Qed.

End PostedGif.

(** ** How often a run polls *)

Section PollBudget.

Variable penv : ProcessEnv.
Variable w : World.

Lemma count_fetch_snoc (t : list (N * Event)) (x : N * Event) :
  count isFetch (map snd (t ++ [x])) =
  (count isFetch (map snd t) + if isFetch (snd x) then 1 else 0)%nat.
Proof.
  rewrite map_app, count_app. unfold count. simpl.
  destruct (isFetch (snd x)); reflexivity.
Qed.

Lemma count_fetch_cleanup (t : list (N * Event)) (t0 t1 : N) (dels : list Comment) :
  count isFetch
    (map snd (t ++ (t0, GetComments)
                :: map (fun c => (t1, DeleteComment (id c))) dels)) =
  count isFetch (map snd t).
Proof.
  rewrite map_app, count_app. simpl. rewrite map_map. simpl.
  change (GetComments :: map (fun c => DeleteComment (id c)) dels)
    with (cleanupCalls dels).
  rewrite count_cleanupCalls by (intros; reflexivity). simpl. lia.
Qed.

(** Every poll after the first comes at least [POLL_DELAY] after the
    one before, and none comes once the timer is due. *)
Lemma scanChecksAndPostGif_fetch_budget (fuel : nat) (s : State) :
  (now s < MAX_TIMEOUT)%N ->
  (now s + POLL_DELAY *
           N.of_nat (count isFetch
                       (map snd (trace (outcomeState
                                          (scanChecksAndPostGif penv w fuel s)))))
   < MAX_TIMEOUT + POLL_DELAY +
     POLL_DELAY * N.of_nat (count isFetch (map snd (trace s))))%N.
Proof.
  revert s. induction fuel as [|fuel IH]; intros s Hnow.
  { simpl. unfold POLL_DELAY. lia. }
  rewrite scanChecksAndPostGif_round.
  destruct (deleteExistingComments_effect w s Hnow)
    as [C1 [_ [[dels [t [_ [_ C3]]]] _]]].
  assert (Stay : forall s', trace s' =
                   trace s ++ (now s, GetComments)
                           :: map (fun c => (t, DeleteComment (id c))) dels ->
                 count isFetch (map snd (trace s')) =
                 count isFetch (map snd (trace s)))
    by (intros s' E; rewrite E; apply count_fetch_cleanup).
  destruct (deleteExistingComments w s) as [u1 s1|s1|s1|s1]; simpl in *;
    try (rewrite (Stay _ C3); unfold POLL_DELAY; lia).
  destruct C1 as [C1a C1b]. specialize (Stay s1 C3).
  destruct (fetchChecks_effect w s1 C1b) as [F1 [_ [_ [F4 _]]]].
  assert (One : forall s2, trace s2 = trace s1 ++ [(now s1, GetCheckRuns)] ->
                count isFetch (map snd (trace s2)) =
                S (count isFetch (map snd (trace s))))
    by (intros s2 E; rewrite E, count_fetch_snoc, Stay; simpl; lia).
  destruct (fetchChecks w s1) as [res s2|s2|s2|s2]; simpl in *;
    try (rewrite (One _ F4); unfold POLL_DELAY; lia).
  destruct F1 as [F1a F1b]. specialize (One s2 F4).
  assert (Post : forall tag,
            count isFetch
              (map snd (trace (outcomeState (postGiphyGifForTag w tag s2)))) =
            S (count isFetch (map snd (trace s)))).
  { intros tag.
    destruct (postGiphyGifForTag_effect w tag s2 F1b) as [_ [_ [_ P4]]].
    simpl in P4. destruct P4 as [E | [t' [_ [_ E]]]]; rewrite E.
    - rewrite count_fetch_snoc, One. simpl. lia.
    - change [(now s2, GetRandomGif tag);
              (t', PostComment (commentBody (gifFor w tag)))]
        with ([(now s2, GetRandomGif tag)] ++
              [(t', PostComment (commentBody (gifFor w tag)))]).
      rewrite app_assoc, !count_fetch_snoc, One. simpl. lia. }
  destruct (getStatusOfChecks (GITHUB_ACTION penv) res).
  - rewrite Post. unfold POLL_DELAY. lia.
  - destruct (sleep_effect POLL_DELAY s2 F1b) as [S1 [_ [_ [S4 S5]]]].
    assert (Slept : forall s3, trace s3 = trace s2 ++ [(now s2, Sleep POLL_DELAY)] ->
                    count isFetch (map snd (trace s3)) =
                    S (count isFetch (map snd (trace s))))
      by (intros s3 E; rewrite E, count_fetch_snoc, One; simpl; lia).
    destruct (sleep POLL_DELAY s2) as [u3 s3|s3|s3|s3]; simpl in *;
      try (rewrite (Slept _ S4); unfold POLL_DELAY; lia).
    specialize (S5 u3 s3 eq_refl). destruct S1 as [S1a S1b].
    specialize (IH s3 S1b). rewrite (Slept s3 S4) in IH. lia.
  - rewrite Post. unfold POLL_DELAY. lia.
Qed.

(** X12: no run lists the check runs more than 60 times, whatever the
    answers and however fast they come: the 5 s between two polls and the
    timer at 300 s leave room for no more. *)
Theorem polls_bounded (r : Exit) :
  main penv w = Some r ->
  (count isFetch (map snd (events r)) <= 60)%nat.
Proof.
  intros Hm. unfold main in Hm. destruct (skipsEvent penv).
  - injection Hm as <-. unfold count. simpl. lia.
  - assert (H0 : (now (initialState w) < MAX_TIMEOUT)%N) by reflexivity.
    pose proof (scanChecksAndPostGif_fetch_budget maxRounds (initialState w) H0) as B.
    change (now (initialState w)) with 0%N in B.
    change (trace (initialState w)) with (@nil (N * Event)) in B.
    change (count isFetch (map snd [])) with 0%nat in B.
    unfold MAX_TIMEOUT, POLL_DELAY in B.
    destruct (scanChecksAndPostGif penv w maxRounds (initialState w));
      try discriminate; injection Hm as <-; simpl in *; lia.
Qed.

End PollBudget.

(** ** A rejected listing *)

(** X13: when the first request, the comment listing, is rejected before
    the timer is due, the run ends there: exit code 1 at the time of the
    answer, no check runs fetched, nothing deleted or posted, the
    comments as they were. *)
Theorem listing_rejected_ends_run (penv : ProcessEnv) (w : World) :
  skipsEvent penv = false ->
  accepts w 0 = false ->
  (latency w 0 < MAX_TIMEOUT)%N ->
  main penv w =
  Some (mkExit 1 (latency w 0) [(0%N, GetComments)] (initialComments w)).
Proof.
  intros Hgo Hrej Hlat. unfold main. rewrite Hgo.
  assert (E : deleteExistingComments w (initialState w) =
              Rejected (mkState (latency w 0) 1 0 (initialComments w)
                                [(0%N, GetComments)])).
  { unfold deleteExistingComments, getIssueComments, andThen, send, await, andThen,
      elapse, serverEffect, initialState.
    simpl. rewrite Hrej, N.add_0_l.
    apply N.leb_gt in Hlat. rewrite Hlat. reflexivity. }
  change maxRounds with (S 60). rewrite scanChecksAndPostGif_round, E. reflexivity.
Qed.

Lemma listing_rejected_ends_run_witness :
  main onOpened refusedListing =
  Some (mkExit 1 250 [(0%N, GetComments)] [oldComment]).
Proof.
  apply (listing_rejected_ends_run onOpened refusedListing); reflexivity.
Defined.

(** ** The properties above on the run of [twoPolls] *)

Lemma twoPolls_succeeds :
  exists r : Exit, main onOpened twoPolls = Some r /\ code r = 0%Z.
Proof. eexists. split; vm_compute; reflexivity. Qed.

Lemma twoPolls_distinct_ids : NoDup (map id (initialComments twoPolls)).
Proof. simpl. repeat constructor; simpl; intuition discriminate. Qed.

Lemma other_comments_survive_witness :
  exists r : Exit,
    main onOpened twoPolls = Some r /\ In (mkComment 1 "hi") (finalComments r).
Proof.
  destruct twoPolls_succeeds as [r [Hm _]]. exists r. split; [exact Hm|].
  apply (other_comments_survive onOpened twoPolls r (mkComment 1 "hi")).
  - exact twoPolls_distinct_ids.
  - exact Hm.
  - simpl. left. reflexivity.
  - reflexivity.
Defined.

Lemma success_replaces_own_comments_witness :
  exists (r : Exit) (i : N) (tag : string),
    main onOpened twoPolls = Some r /\
    finalComments r = [mkComment 1 "hi"; mkComment i (commentBody (anyGif tag))].
Proof.
  destruct twoPolls_succeeds as [r [Hm Hc]].
  destruct (success_replaces_own_comments onOpened twoPolls r eq_refl
              twoPolls_distinct_ids ltac:(simpl; lia) Hm Hc) as [i [tag H]].
  exists r, i, tag. split; [exact Hm | exact H].
Defined.

Lemma success_means_every_request_accepted_witness :
  accepts twoPolls 6 = true.
Proof.
  destruct twoPolls_succeeds as [r [Hm Hc]].
  apply (success_means_every_request_accepted onOpened twoPolls r 6 eq_refl Hm Hc).
  vm_compute in Hm. injection Hm as <-. vm_compute. lia.
Defined.


Lemma at_most_one_post_witness :
  exists r : Exit,
    main onOpened lateAnswer = Some r /\
    (count isGif (map snd (events r)) <= 1)%nat.
Proof.
  assert (H : exists r, main onOpened lateAnswer = Some r)
    by (eexists; vm_compute; reflexivity).
  destruct H as [r Hm]. exists r. split; [exact Hm|].
  exact (proj2 (at_most_one_post onOpened lateAnswer r Hm)).
Defined.

Lemma polls_bounded_witness :
  exists r : Exit,
    main onOpened stuck = Some r /\
    (count isFetch (map snd (events r)) <= 60)%nat.
Proof.
  assert (H : exists r, main onOpened stuck = Some r)
    by (eexists; vm_compute; reflexivity).
  destruct H as [r Hm]. exists r. split; [exact Hm|].
  exact (polls_bounded onOpened stuck r Hm).
Defined.

Example stuck_polls_58_times :
  option_map (fun r => count isFetch (map snd (events r))) (main onOpened stuck) =
  Some 58%nat.
Proof. vm_compute. reflexivity. Qed.

(** ** The deletions of one cleanup run side by side *)

Section Concurrency.

Variable w : World.




End Concurrency.


(** The script always ends, whatever it is launched with. *)
Lemma run_total (l : Launch) (w : World) : exists r : Exit, run l w = Some r.
Proof.
  unfold run. destruct (startup l) as [|penv].
  - eexists. reflexivity.
  - apply main_total.
Qed.
